(** * ATC_MiThermometer (PVVX) BLE advertisement dashboard

    A shallow embedding of [MiTermometerPVVX/main.py] (the scan callback:
    payload decoding, per-device counters and timestamps, grid placement and
    rendering) and of [MiTermometerPVVX/outputs.py] (print sinks, console
    windows and the window manager), with the properties of the design
    document stated and settled against them. *)

From Stdlib Require Import ZArith Floats Uint63 Ascii String List Bool Lia.
From Stdlib.Strings Require Import Byte.
From Stdlib Require Import DecimalString.
From stdpp Require Import gmap strings list.
Import ListNotations.
Set Warnings "-inexact-float".
Local Open Scope Z_scope.

(** ** Python values shared by both modules *)

(** A [bytes] object is a list of bytes; [byte_val] is the integer [b[i]]. *)
Definition byte_val (b : byte) : Z := Z.of_N (Byte.to_N b).

(** [bs[a:b]] for [0 <= a <= b]: slicing never raises, it truncates. *)
Definition slice (a b : nat) (bs : list byte) : list byte :=
  take (b - a) (drop a bs).

(** The unsigned little-endian value of a byte string. *)
Fixpoint little_endian (bs : list byte) : Z :=
  match bs with
  | [] => 0
  | b :: rest => byte_val b + 256 * little_endian rest
  end.

(** [int.from_bytes(bs, byteorder="little", signed=signed)]: with [signed]
    the value is read in two's complement over [8 * len(bs)] bits; the empty
    byte string is [0] either way. *)
Definition int_from_bytes (bs : list byte) (signed : bool) : Z :=
  let n := little_endian bs in
  let bits := 8 * Z.of_nat (length bs) in
  if signed && Z.testbit n (bits - 1) then n - 2 ^ bits else n.

(** The [float] of a Python [int] (exact below [2^53]). *)
Definition float_of_Z (z : Z) : float :=
  if z <? 0 then PrimFloat.opp (PrimFloat.of_uint63 (Uint63.of_Z (- z)))
  else PrimFloat.of_uint63 (Uint63.of_Z z).

(** [str(n)] for a Python [int]. *)
Definition str_of_int (n : Z) : string := NilZero.string_of_int (Z.to_int n).

(** The integer nearest to the exact quotient [n / d] for [0 < d], a tie
    going to the even neighbour: the rounding of IEEE 754 and of Python's
    [round]. *)
Definition round_div (n d : Z) : Z :=
  let q := n / d in
  let r := n mod d in
  if 2 * r <? d then q
  else if d <? 2 * r then q + 1
  else if Z.even q then q else q + 1.

(** [floor(log2(a / d))] for positive integers [a] and [d]. *)
Definition log2_quot (a d : Z) : Z :=
  let j := Z.log2 a - Z.log2 d in
  if d * 2 ^ Z.max j 0 <=? a * 2 ^ Z.max (- j) 0 then j else j - 1.

(** [a / d] for positive Python integers: the binary64 float nearest to the
    exact quotient (ties to even), given as a significand [m] of 53 bits
    and an exponent [k]; the float is [m / 2^k], or [m * 2^(-k)] for a
    negative [k].  The quotients met here are far from the subnormal and
    from the overflow range. *)
Definition true_divide (a d : Z) : Z * Z :=
  let k := 52 - log2_quot a d in
  (if 0 <=? k then round_div (a * 2 ^ k) d
   else round_div a (d * 2 ^ (- k)),
   k).

(** [round(x)] for the float [x = m / 2^k]: the nearest integer, ties to
    even. *)
Definition round_float (f : Z * Z) : Z :=
  let '(m, k) := f in
  if 0 <=? k then round_div m (2 ^ k) else m * 2 ^ (- k).

(** [round(n / d)] for Python integers [n] and [0 < d]: the quotient is
    rounded to a float first and the float to an integer then; both
    roundings are symmetric about zero. *)
Definition round_true_divide (n d : Z) : Z :=
  if n =? 0 then 0
  else Z.sgn n * round_float (true_divide (Z.abs n) d).

(** A dictionary [{"x": x, "y": y}]. *)
Record position := Position { pos_x : Z; pos_y : Z }.

(** * main.py *)
Module Main.

(** A naive [datetime.datetime] as microseconds on the local time line, and
    a [datetime.timedelta] as a signed number of microseconds. *)
Definition datetime := Z.
Definition timedelta := Z.

Definition timedelta_of_seconds (s : Z) : timedelta := s * 1000000.

(** [date_diff] holds a [timedelta] or the integer [0] (line 73). *)
Inductive date_diff_t :=
| IntZero
| Delta (d : timedelta).

(** Truth value of [date_diff] in [if date_diff:]: the integer [0] and the
    zero [timedelta] are both false. *)
Definition date_diff_truthy (d : date_diff_t) : bool :=
  match d with
  | IntZero => false
  | Delta d => negb (d =? 0)
  end.

(** The value column of a rendered row, kept as the datum handed to the
    format string. *)
Inductive unit_t := Celsius | Percent | Volt | Decibel | NoUnit.

Inductive value :=
| VName (s : option string)          (* name *)
| VFixed2 (f : float) (u : unit_t)   (* f"{f:.2f} u" *)
| VFloat (f : float) (u : unit_t)    (* f"{f} u" *)
| VInt (n : Z) (u : unit_t)          (* f"{n} u" *)
| VClock (t : datetime)              (* t.strftime('%H:%M:%S') *)
| VDelta (d : date_diff_t).          (* str(date_diff) *)

(** The argument of [print_text]: a row ["{:<w}{:<8}".format(label, v)] or
    the rule ["-" * n]. *)
Inductive text :=
| Row (w : Z) (label : string) (v : value)
| Rule (n : Z).

(** What reaches the terminal: [os.system("cls")], or
    ["\033[" + str(y) + ";" + str(x) + "H" + text]. *)
Inductive output :=
| Cls
| PrintAt (y x : Z) (t : text).

(** An entry [{"name": name, "id": id}] of [atc_devices]; a name is [None]
    or a string. *)
Record device_entry := DeviceEntry { name : option string; id : Z }.

(** The closure state of [main]: the three dictionaries, the print cursor
    and the terminal written so far. *)
Record state := State {
  atc_counters : gmap string Z;
  atc_date : gmap string datetime;
  atc_devices : gmap string device_entry;
  print_pos : position;
  terminal : list output
}.

Definition initial : state :=
  State ∅ ∅ ∅ (Position 0 0) [].

Record BLEDevice := { address : string }.

Record AdvertisementData := {
  local_name : option string;
  service_data : gmap string (list byte);
  rssi : Z
}.

Definition ATC_SERVICE : string := "0000181a-0000-1000-8000-00805f9b34fb".

Definition print_text_pos (x y : Z) (st : state) : state :=
  State (atc_counters st) (atc_date st) (atc_devices st)
        (Position x y) (terminal st).

Definition print_text (t : text) (st : state) : state :=
  let p := print_pos st in
  State (atc_counters st) (atc_date st) (atc_devices st)
        (Position (pos_x p) (pos_y p + 1))
        (terminal st ++ [PrintAt (pos_y p) (pos_x p) t]).

Definition print_clear (st : state) : state :=
  State (atc_counters st) (atc_date st) (atc_devices st)
        (print_pos st) (terminal st ++ [Cls]).

(** [s.split(sep)] for a one-character separator. *)
Fixpoint split (sep : ascii) (s : string) : list string :=
  match s with
  | EmptyString => [EmptyString]
  | String c rest =>
      if Ascii.eqb c sep then EmptyString :: split sep rest
      else match split sep rest with
           | h :: t => String c h :: t
           | [] => [String c EmptyString]
           end
  end.

(** ["ATC-" + "".join(address.split(":")[-2:])] (line 53). *)
Definition synthetic_name (addr : string) : string :=
  let parts := split ":"%char addr in
  String.append "ATC-"
    (String.concat "" (drop (length parts - 2)%nat parts)).

(** Truth value of a name that is [None] or a string. *)
Definition name_truthy (n : option string) : bool :=
  match n with
  | Some s => negb (String.eqb s "")
  | None => false
  end.

(** The decoded fields (lines 61 and 75-88). *)
Definition count (adv_atc : list byte) : Z :=
  int_from_bytes (slice 13 14 adv_atc) false.

Definition temp (adv_atc : list byte) : float :=
  PrimFloat.div (float_of_Z (int_from_bytes (slice 6 8 adv_atc) true)) 100.

Definition humidity (adv_atc : list byte) : float :=
  PrimFloat.div (float_of_Z (int_from_bytes (slice 8 10 adv_atc) true)) 100.

Definition battery_v (adv_atc : list byte) : float :=
  PrimFloat.div (float_of_Z (int_from_bytes (slice 10 12 adv_atc) false)) 1000.

Definition battery (adv_atc : list byte) : Z :=
  int_from_bytes (slice 12 13 adv_atc) false.

(** Lines 45-48: the first sighting of an address clears the screen when
    it is the first device at all and records name and slot.  The entry of
    the address is returned with the state, so that the later reads of
    [atc_devices[device.address]] need no failing case. *)
Definition register (addr : string) (nm : option string) (st : state)
  : device_entry * state :=
  match atc_devices st !! addr with
  | Some e => (e, st)
  | None =>
      let st := if decide (size (atc_devices st) = 0%nat)
                then print_clear st else st in
      let e := DeviceEntry nm (Z.of_nat (size (atc_devices st))) in
      (e, State (atc_counters st) (atc_date st)
                (<[addr := e]> (atc_devices st))
                (print_pos st) (terminal st))
  end.

(** Lines 50-54: the name to show; a stored name that is empty is replaced
    by the synthetic one. *)
Definition resolve_name (addr : string) (nm : option string)
    (e : device_entry) (st : state) : option string * state :=
  if name_truthy nm then (nm, st)
  else if name_truthy (name e) then (name e, st)
  else
    let n := Some (synthetic_name addr) in
    (n, State (atc_counters st) (atc_date st)
              (<[addr := DeviceEntry n (id e)]> (atc_devices st))
              (print_pos st) (terminal st)).

(** [round(td.total_seconds())] (line 70): [total_seconds()] is the true
    division of the microseconds of [td] by [10**6], a float. *)
Definition round_total_seconds (td : timedelta) : Z :=
  round_true_divide td 1000000.

(** Lines 65-73: the elapsed time since the stored timestamp, rounded to
    whole seconds, or the integer [0] when there is none.  A [datetime] is
    always true. *)
Definition date_diff (date_now : datetime) (date_prev : option datetime)
  : date_diff_t :=
  match date_prev with
  | Some p => Delta (timedelta_of_seconds (round_total_seconds (date_now - p)))
  | None => IntZero
  end.

(** Layout constants of lines 92-98. *)
Definition h1 : Z := 12.
Definition h2 : Z := 8.
Definition gap : Z := 15.
Definition name_len : Z := h1 + h2.
Definition text_width : Z := name_len + gap.
Definition text_hight : Z := 10 + 3.
Definition cols : Z := 4.

Definition posx (id : Z) : Z := text_width * (id mod cols).
Definition posy (id : Z) : Z := text_hight * (id / cols) + 1.

(** Lines 103-115: the nine rows of every update. *)
Definition rows (nm : option string) (adv_atc : list byte) (rssi : Z)
    (date_now : datetime) : list text :=
  [ Row 12 "device:" (VName nm);
    Rule name_len;
    Row 12 "temp:" (VFixed2 (temp adv_atc) Celsius);
    Row 12 "humidity:" (VFixed2 (humidity adv_atc) Percent);
    Row 12 "batteryv:" (VFloat (battery_v adv_atc) Volt);
    Row 12 "battery:" (VInt (battery adv_atc) Percent);
    Row 11 "rssi:" (VInt rssi Decibel);
    Row 12 "count:" (VInt (count adv_atc) NoUnit);
    Row 12 "time now:" (VClock date_now) ].

(** Lines 116-119. *)
Definition duration_row (d : date_diff_t) : list text :=
  if date_diff_truthy d then [Row 12 "Duration:" (VDelta d)] else [].

(** Lines 63-119, entered when the counter differs. *)
Definition update (addr : string) (nm : option string) (e : device_entry)
    (adv_atc : list byte) (rssi : Z) (date_now : datetime) (st : state) : state :=
  let d := date_diff date_now (atc_date st !! addr) in
  let st := State (<[addr := count adv_atc]> (atc_counters st))
                  (<[addr := date_now]> (atc_date st))
                  (atc_devices st) (print_pos st) (terminal st) in
  let st := print_text_pos (posx (id e)) (posy (id e)) st in
  foldl (fun s t => print_text t s) st
        (rows nm adv_atc rssi date_now ++ duration_row d).

(** The scan callback; [date_now] is what [datetime.datetime.now()]
    returns when line 65 is reached.  [advertising_data] is a non-empty
    named tuple, so the test of line 42 holds, as do [if True:] and the
    second [if adv_atc:] (lines 57 and 60) once line 35 has been passed.
    There is no check of the length of [adv_atc] and no exception is
    raised on any input. *)
Definition callback (device : BLEDevice) (advertising_data : AdvertisementData)
    (date_now : datetime) (st : state) : state :=
  match service_data advertising_data !! ATC_SERVICE with
  | None => st
  | Some [] => st
  | Some adv_atc =>
      let addr := address device in
      let '(e, st) := register addr (local_name advertising_data) st in
      let '(nm, st) := resolve_name addr (local_name advertising_data) e st in
      if decide (atc_counters st !! addr = Some (count adv_atc)) then st
      else update addr nm e adv_atc (rssi advertising_data) date_now st
  end.

End Main.

(** * outputs.py *)
Module Outputs.

Definition ESC : string := String "027"%char EmptyString.

(** The print sinks share the interface of [PrintAbstract]; [S] is the
    state a sink writes to. *)
Class PrintAbstract (S : Type) := {
  print_value : string -> option position -> S -> S;
  clear : S -> S;
  clear_lines : Z -> S -> S
}.

(** ** ConsolePrint *)

Definition CLEAR_SCREEN : string := ESC ++ "c" ++ ESC ++ "[3J".
Definition CLEAR_LINE : string := ESC ++ "[K".

(** [POSITION.format(y=pos["y"], x=pos["x"], text=text)] *)
Definition POSITION (y x : Z) (text : string) : string :=
  ESC ++ "[" ++ str_of_int y ++ ";" ++ str_of_int x ++ "H" ++ text.

Definition format_text (text : string) (pos : option position) : string :=
  match pos with
  | Some p => POSITION (pos_y p) (pos_x p) text
  | None => text
  end.

(** The synchronous sink writes to standard output at once; its state is
    the list of printed strings. *)
Definition stdout := list string.

#[export] Instance ConsolePrint : PrintAbstract stdout := {
  print_value text pos out := out ++ [format_text text pos];
  clear out := out ++ [CLEAR_SCREEN];
  clear_lines lines out := out ++ replicate (Z.to_nat lines) CLEAR_LINE
}.

(** ** ConsolePrintAsync *)

(** The queue holds strings and the exit signal [None]; [worker_done] is
    set when [worker_task] has finished; [printed] is what the worker has
    written to standard output. *)
Record async_sink := AsyncSink {
  print_queue : list (option string);
  worker_done : bool;
  printed : stdout
}.

(** [ConsolePrintAsync.__init__]: an empty queue and a worker waiting. *)
Definition new_async : async_sink := AsyncSink [] false [].

(** [await self.print_queue.put(m)]: the queue is unbounded, a put never
    waits. *)
Definition put (m : option string) (s : async_sink) : async_sink :=
  AsyncSink (print_queue s ++ [m]) (worker_done s) (printed s).

Definition async_print (text : string) : async_sink -> async_sink :=
  put (Some text).

#[export] Instance ConsolePrintAsync : PrintAbstract async_sink := {
  print_value text pos s := async_print (format_text text pos) s;
  clear s := async_print CLEAR_SCREEN s;
  clear_lines lines s :=
    Nat.iter (Z.to_nat lines) (async_print CLEAR_LINE) s
}.

(** One turn of the loop of [print_worker]: taken when the worker is still
    running and the queue is not empty (otherwise [get] keeps waiting and
    nothing changes).  A string is printed, [None] ends the task. *)
Definition print_worker (s : async_sink) : async_sink :=
  if worker_done s then s
  else match print_queue s with
       | [] => s
       | Some message :: q => AsyncSink q false (printed s ++ [message])
       | None :: q => AsyncSink q true (printed s)
       end.

(** What the event loop can run next: a producer calling one of the sink's
    methods, the first statement of [close] (the put of the exit signal),
    or a turn of the worker.  The second statement of [close],
    [await self.worker_task], returns once [worker_done] holds. *)
Inductive event :=
| PrintValue (text : string) (pos : option position)
| Clear
| ClearLines (lines : Z)
| ClosePut
| Worker.

Definition exec (s : async_sink) (e : event) : async_sink :=
  match e with
  | PrintValue text pos => print_value text pos s
  | Clear => clear s
  | ClearLines lines => clear_lines lines s
  | ClosePut => put None s
  | Worker => print_worker s
  end.

Definition run (s : async_sink) (es : list event) : async_sink :=
  foldl exec s es.

(** The items an event puts on the queue. *)
Definition enqueued (e : event) : list (option string) :=
  match e with
  | PrintValue text pos => [Some (format_text text pos)]
  | Clear => [Some CLEAR_SCREEN]
  | ClearLines lines => replicate (Z.to_nat lines) (Some CLEAR_LINE)
  | ClosePut => [None]
  | Worker => []
  end.

(** The strings of a queue that precede its first exit signal. *)
Fixpoint before_exit (q : list (option string)) : list string :=
  match q with
  | Some m :: q => m :: before_exit q
  | _ => []
  end.

(** [await self.worker_task] with nothing else scheduled: the worker takes
    turns until it is done; [fuel] bounds the turns. *)
Fixpoint await_worker (fuel : nat) (s : async_sink) : option async_sink :=
  if worker_done s then Some s
  else match fuel with
       | O => None
       | S fuel => await_worker fuel (print_worker s)
       end.

(** [close()] run to completion. *)
Definition close (fuel : nat) (s : async_sink) : option async_sink :=
  await_worker fuel (put None s).

(** ** consoleWindow *)

(** The sink a window prints to is passed to [print_line] with its state
    instead of being stored in the record. *)
Record consoleWindow := ConsoleWindow {
  id : Z;
  width : Z;
  height : Z;
  x : Z;
  y : Z;
  pos : position;
  line_height : Z
}.

(** [consoleWindow.__init__] *)
Definition new_window (id width height x y : Z) : consoleWindow :=
  ConsoleWindow id width height x y (Position 0 0) 1.

Definition set_pos (self : consoleWindow) (p : position) : consoleWindow :=
  ConsoleWindow (id self) (width self) (height self) (x self) (y self)
                p (line_height self).

(** [clip_window_pos]: without an argument a copy of the cursor is
    clipped; a dictionary passed in is clipped in place and returned.  A
    dictionary with its two keys is true, so the test [if pos:] holds. *)
Definition clip_window_pos (self : consoleWindow) (p : option position)
  : position :=
  let p := match p with Some p => p | None => pos self end in
  Position (Z.max 0 (Z.min (pos_x p) (width self - 1)))
           (Z.max 0 (Z.min (pos_y p) (height self - 1))).

Definition get_abs_pos (self : consoleWindow) : position :=
  clip_window_pos self
    (Some (Position (x self + pos_x (pos self)) (y self + pos_y (pos self)))).

(** [line_cr] writes through [self.pos] before replacing it by the clipped
    copy; the first component is the object [self.pos] referred to on
    entry, as it is left behind. *)
Definition line_cr (self : consoleWindow) : position * consoleWindow :=
  let moved := Position 0 (pos_y (pos self) + line_height self) in
  let self := set_pos self moved in
  (moved, set_pos self (clip_window_pos self None)).

(** [print_line]: the new window, the sink after [print_value], and the
    caller's [pos] dictionary as the call leaves it ([self.pos] is that
    very object until [line_cr] replaces it). *)
Definition print_line {S} `{PrintAbstract S} (self : consoleWindow)
    (text : string) (p : option position) (sink : S)
  : consoleWindow * S * option position :=
  let self := match p with
              | Some _ => set_pos self (clip_window_pos self p)
              | None => self
              end in
  let text := ("[" ++ str_of_int (pos_x (pos self)) ++ ", "
                   ++ str_of_int (pos_y (pos self)) ++ "] " ++ text)%string in
  let sink := print_value text (Some (pos self)) sink in
  let '(moved, self) := line_cr self in
  (self, sink, match p with Some _ => Some moved | None => None end).

(** ** consoleWindows *)

Inductive exn :=
| ValueError (id : Z)
| ZeroDivisionError.

Definition result (A : Type) := (exn + A)%type.

Definition bind {A B} (r : result A) (k : A -> result B) : result B :=
  match r with
  | inl e => inl e
  | inr a => k a
  end.

Notation "'try' v <- r 'in' k" := (bind r (fun v => k))
  (at level 10, v name, r at level 100, k at level 200).

(** [a // b] and [a % b] raise on a zero divisor. *)
Definition floordiv (a b : Z) : result Z :=
  if b =? 0 then inl ZeroDivisionError else inr (a / b).

Definition modulo (a b : Z) : result Z :=
  if b =? 0 then inl ZeroDivisionError else inr (a mod b).

(** The manager; [cols] and [rows] are the terminal size read once by
    [__init__]. *)
Record consoleWindows := ConsoleWindows {
  windows : gmap Z consoleWindow;
  wx : Z;
  wy : Z;
  gap_x : Z;
  gap_y : Z;
  cols : Z;
  rows : Z
}.

(** [consoleWindows.__init__] with its default arguments, on a terminal
    of the given size. *)
Definition new_windows (cols rows : Z) : consoleWindows :=
  ConsoleWindows ∅ 0 0 9 0 cols rows.

(** The id of a window added without one: [0], or [max(ids) + 1]. *)
Definition next_id (ws : gmap Z consoleWindow) : Z :=
  match (map_to_list ws).*1 with
  | [] => 0
  | k :: ks => foldr Z.max k ks + 1
  end.

Definition add_window (self : consoleWindows) (id : option Z)
    (width height : Z) : result (Z * consoleWindows) :=
  let id := match id with Some i => i | None => next_id (windows self) end in
  try x_max_windows <- floordiv (cols self) (wx self + width + gap_x self) in
  try y_max_windows <- floordiv (rows self) (wy self + height + gap_y self) in
  if x_max_windows * y_max_windows <? id then inl (ValueError id)
  else
    try window_row <- floordiv id x_max_windows in
    try window_col <- modulo id x_max_windows in
    let x := wx self + width * window_row + gap_x self in
    let y := wy self + height * window_col + gap_y self in
    let window := new_window id width height x y in
    inr (id, ConsoleWindows (<[id := window]> (windows self))
               (wx self) (wy self) (gap_x self) (gap_y self)
               (cols self) (rows self)).

End Outputs.

(** * Vocabulary of the properties *)

(** ** The offset table of the wire format and the range of its fields *)

(** The unsigned and the signed 16-bit little-endian integer made of a low
    and a high byte, and the byte at an offset of the payload. *)
Definition u16_le (lo hi : byte) : Z :=
  Z.lor (byte_val lo) (Z.shiftl (byte_val hi) 8).

Definition s16_le (lo hi : byte) : Z :=
  (u16_le lo hi + 2 ^ 15) mod 2 ^ 16 - 2 ^ 15.

Definition byte_at (bs : list byte) (i : nat) : byte := nth i bs x00.

(** [n / 100.0], and whether it lies between the floats nearest to
    -327.68 and 327.67. *)
Definition centi (n : Z) : float := PrimFloat.div (float_of_Z n) 100.

Definition centi_in_range (n : Z) : bool :=
  PrimFloat.leb (-327.68)%float (centi n) && PrimFloat.leb (centi n) 327.67%float.

(** [p] holds on the [n] integers from [lo] on. *)
Fixpoint all_from (p : Z -> bool) (lo : Z) (n : nat) : bool :=
  match n with
  | O => true
  | S k => p lo && all_from p (lo + 1) k
  end.

(** The binary64 float with significand [m] and exponent [k], and whether
    [true_divide n 10^6] is the float that the division of the machine
    gives for [n] microseconds. *)
Definition float_of_dyadic (f : Z * Z) : float :=
  let '(m, k) := f in Z.ldexp (float_of_Z m) (- k).

Definition true_divide_is_binary64 (n : Z) : bool :=
  PrimFloat.eqb (float_of_dyadic (true_divide n 1000000))
                (PrimFloat.div (float_of_Z n) 1000000).

(** Rounding a float below [2^51] to an integer on the machine: adding and
    subtracting [2^52] rounds to the nearest integer, ties to even.  And
    whether [round_total_seconds] gives that integer for [n]
    microseconds. *)
Definition machine_round (x : float) : float :=
  PrimFloat.sub (PrimFloat.add x 4503599627370496) 4503599627370496.

Definition round_is_machine_round (n : Z) : bool :=
  PrimFloat.eqb (float_of_Z (Main.round_total_seconds n))
                (machine_round (PrimFloat.div (float_of_Z n) 1000000)).

(** ** Observations on the scan callback *)
Section MainVocabulary.
Import Main.

(** The test vector of the design document. *)
Definition ex_payload : list byte :=
  [x06; x00; x78; x78; x78; x09; x64; x00; x80; x19; xe4; x0d; x3c; x01].

(** A well-formed 14-byte payload whose battery byte is 0xff. *)
Definition full_battery_byte : list byte :=
  [x06; x00; x78; x78; x78; x09; x64; x00; x80; x19; xe4; x0d; xff; x01].

(** The rows [print_text] writes from a cursor position on: one terminal
    line each, the same column. *)
Fixpoint render (x y : Z) (ts : list text) : list output :=
  match ts with
  | [] => []
  | t :: ts => PrintAt y x t :: render x (y + 1) ts
  end.

(** The screen clear of the very first sighting. *)
Definition clear_on_first (addr : string) (st : state) : list output :=
  match atc_devices st !! addr with
  | Some _ => []
  | None => if decide (size (atc_devices st) = 0%nat) then [Cls] else []
  end.

(** What one call of the callback adds to the terminal. *)
Definition shown (device : BLEDevice) (advertising_data : AdvertisementData)
    (date_now : datetime) (st : state) : list output :=
  drop (length (terminal st))
       (terminal (callback device advertising_data date_now st)).

(** The Duration row, on the terminal and as an argument of [print_text]. *)
Definition is_duration (o : output) : bool :=
  match o with
  | PrintAt _ _ (Row _ label (VDelta _)) => String.eqb label "Duration:"
  | _ => false
  end.

(** The states the scanner can be in: the callback applied to any
    advertisements from the initial state on. *)
Inductive reachable : state -> Prop :=
| reach_initial : reachable initial
| reach_callback device advertising_data date_now st :
    reachable st ->
    reachable (callback device advertising_data date_now st).

(** Every stored name is a non-empty string and every address with a
    counter is registered. *)
Definition registry_ok (st : state) : Prop :=
  (forall a e, atc_devices st !! a = Some e -> name_truthy (name e) = true) /\
  (forall a, is_Some (atc_counters st !! a) -> is_Some (atc_devices st !! a)).

Definition is_duration_text (t : text) : bool :=
  match t with
  | Row _ label (VDelta _) => String.eqb label "Duration:"
  | _ => false
  end.

(** A sensor and its advertisement carrying the test vector, without a
    local name. *)
Definition ex_dev : BLEDevice := {| address := "A4:C1:38:00:99:5B" |}.

Definition ex_adv : AdvertisementData :=
  {| local_name := None;
     service_data := {[ ATC_SERVICE := ex_payload ]};
     rssi := -60 |}.

(** The next sample of the same sensor: sequence counter 2. *)
Definition ex_payload2 : list byte :=
  [x06; x00; x78; x78; x78; x09; x65; x00; x80; x19; xe4; x0d; x3c; x02].

Definition ex_adv2 : AdvertisementData :=
  {| local_name := None;
     service_data := {[ ATC_SERVICE := ex_payload2 ]};
     rssi := -61 |}.

(** A one-byte service-data value. *)
Definition short_payload : list byte := [x01].

Definition short_adv : AdvertisementData :=
  {| local_name := None;
     service_data := {[ ATC_SERVICE := short_payload ]};
     rssi := -60 |}.

(** The state after the first advertisement, received at second 1. *)
Definition ex_state : state := callback ex_dev ex_adv 1000000 initial.

(** Whether the callback takes the branch of line 63. *)
Definition accepts (device : BLEDevice) (advertising_data : AdvertisementData)
    (st : state) : bool :=
  match service_data advertising_data !! ATC_SERVICE with
  | Some adv_atc =>
      negb (Nat.eqb (length adv_atc) 0)
      && negb (bool_decide (atc_counters st !! address device
                            = Some (count adv_atc)))
  | None => false
  end.

(** An advertisement with its time of arrival, and a scan over a sequence
    of them. *)
Definition advertisement : Type := BLEDevice * AdvertisementData * datetime.

Definition scan (st : state) (evs : list advertisement) : state :=
  foldl (fun st '(device, advertising_data, date_now) =>
           callback device advertising_data date_now st) st evs.

(** The time of the last advertisement of [evs] that address [a] had
    accepted, or [acc] when there is none. *)
Fixpoint last_accepted (a : string) (st : state) (evs : list advertisement)
    (acc : option datetime) : option datetime :=
  match evs with
  | [] => acc
  | (device, advertising_data, date_now) :: evs =>
      last_accepted a (callback device advertising_data date_now st) evs
        (if accepts device advertising_data st
            && bool_decide (address device = a)
         then Some date_now else acc)
  end.

End MainVocabulary.

(** ** Observations on windows and the asynchronous sink *)
Section OutputsVocabulary.
Import Outputs.

(** A manager with the default arguments on an 80 by 24 terminal: windows
    of 21 by 5 take 30 columns each, so two fit side by side
    ([x_max_windows = 2]) and four rows of them fit. *)
Definition demo_manager : consoleWindows := new_windows 80 24.

(** Three windows added the way the demonstration of the module adds its
    window. *)
Definition demo_windows : result (gmap Z consoleWindow) :=
  try r0 <- add_window demo_manager None 21 5 in
  try r1 <- add_window (snd r0) None 21 5 in
  try r2 <- add_window (snd r1) None 21 5 in
  inr (windows (snd r2)).

(** The window-local cursor [print_line] prints at. *)
Definition cursor_used (self : consoleWindow) (p : option position)
  : position :=
  match p with
  | Some _ => clip_window_pos self p
  | None => pos self
  end.

(** The first window of the demonstration: id 0, origin (9, 0). *)
Definition demo_window : consoleWindow := new_window 0 21 5 9 0.

(** The cursor is inside the panel. *)
Definition in_bounds (w : consoleWindow) : Prop :=
  0 <= pos_x (pos w) < width w /\ 0 <= pos_y (pos w) < height w.

(** The window after each of a sequence of [print_line] calls. *)
Fixpoint windows_after {S} `{PrintAbstract S} (self : consoleWindow)
    (calls : list (string * option position)) (sink : S)
  : list consoleWindow :=
  match calls with
  | [] => []
  | (text, p) :: calls =>
      let '(self', sink', _) := print_line self text p sink in
      self' :: windows_after self' calls sink'
  end.

(** Everything put on the queue by a sequence of events, in order. *)
Definition history (es : list event) : list (option string) :=
  concat (map enqueued es).

(** The strings among the items of a queue. *)
Definition texts (q : list (option string)) : list string :=
  omap (fun m : option string => m) q.

(** The exit signal, once the worker has taken it off the queue. *)
Definition exit_seen (s : async_sink) : list (option string) :=
  if worker_done s then [None] else [].

End OutputsVocabulary.

(** * Vocabulary of the further properties *)

(** ** The registry of the scan callback *)
Section MainRegistryVocabulary.
Import Main.

(** The service data the callback goes on with: present and not empty. *)
Definition atc_payload (advertising_data : AdvertisementData)
  : option (list byte) :=
  match service_data advertising_data !! ATC_SERVICE with
  | Some (b :: bs) => Some (b :: bs)
  | _ => None
  end.

(** The entry of an address once lines 45-54 have run. *)
Definition entry_after (addr : string) (nm : option string) (st : state)
  : device_entry :=
  match atc_devices st !! addr with
  | Some e0 =>
      if name_truthy nm || name_truthy (name e0) then e0
      else DeviceEntry (Some (synthetic_name addr)) (id e0)
  | None =>
      DeviceEntry (if name_truthy nm then nm else Some (synthetic_name addr))
                  (Z.of_nat (size (atc_devices st)))
  end.

(** The name of the first row. *)
Definition name_shown (addr : string) (nm : option string) (st : state)
  : option string :=
  if name_truthy nm then nm else name (entry_after addr nm st).

(** The sequence counter of the last advertisement of [evs] that came from
    address [a] with service data, or [acc] when there is none. *)
Fixpoint last_count (a : string) (evs : list advertisement) (acc : option Z)
  : option Z :=
  match evs with
  | [] => acc
  | (device, advertising_data, _) :: evs =>
      last_count a evs
        (match atc_payload advertising_data with
         | Some adv_atc =>
             if bool_decide (address device = a) then Some (count adv_atc)
             else acc
         | None => acc
         end)
  end.

(** How often the screen was cleared. *)
Fixpoint count_cls (out : list output) : nat :=
  match out with
  | [] => 0%nat
  | Cls :: out => S (count_cls out)
  | PrintAt _ _ _ :: out => count_cls out
  end.

(** No colon in a string. *)
Fixpoint no_colon (s : string) : bool :=
  match s with
  | EmptyString => true
  | String c s => negb (Ascii.eqb c ":") && no_colon s
  end.

(** The slots are the numbers below the number of devices, one device
    each. *)
Definition slots_ok (st : state) : Prop :=
  (forall a e, atc_devices st !! a = Some e ->
               0 <= id e < Z.of_nat (size (atc_devices st))) /\
  (forall a b ea eb,
     atc_devices st !! a = Some ea -> atc_devices st !! b = Some eb ->
     id ea = id eb -> a = b).

(** The three dictionaries have the same keys. *)
Definition same_keys (st : state) : Prop :=
  forall a,
    (is_Some (atc_counters st !! a) <-> is_Some (atc_devices st !! a)) /\
    (is_Some (atc_date st !! a) <-> is_Some (atc_devices st !! a)).

(** The screen was cleared once if a device is registered, never
    otherwise. *)
Definition cleared_once (st : state) : Prop :=
  count_cls (terminal st)
  = if decide (size (atc_devices st) = 0%nat) then 0%nat else 1%nat.

(** A second sensor, and the state after both sensors have been heard
    once. *)
Definition ex_dev_b : BLEDevice := {| address := "A4:C1:38:00:DB:77" |}.

Definition ex_state_two : state :=
  scan initial [(ex_dev, ex_adv, 1000000); (ex_dev_b, ex_adv, 2000000)].

End MainRegistryVocabulary.

(** ** Loops over the sinks and windows *)
Section OutputsLoopsVocabulary.
Import Outputs.

(** The loop of the demonstration, [for text in ts: await
    window.print_line(text)]: the window and the sink it leaves. *)
Fixpoint print_lines {S} `{PrintAbstract S} (self : consoleWindow)
    (ts : list string) (sink : S) : consoleWindow * S :=
  match ts with
  | [] => (self, sink)
  | text :: ts =>
      let '(self', sink', _) := print_line self text None sink in
      print_lines self' ts sink'
  end.

(** The events of a producer on the synchronous sink: the three methods
    write at once; [close] is the empty method of [PrintAbstract] and there
    is no worker. *)
Definition sync_exec (out : stdout) (e : event) : stdout :=
  match e with
  | PrintValue text pos => print_value text pos out
  | Clear => clear out
  | ClearLines lines => clear_lines lines out
  | ClosePut => out
  | Worker => out
  end.

(** What [print_line] writes on the synchronous sink for a text at a
    cursor. *)
Definition line_at (x y : Z) (text : string) : string :=
  POSITION y x ("[" ++ str_of_int x ++ ", " ++ str_of_int y ++ "] " ++ text).

(** The manager of the demonstration holding two windows, and with the
    third one added. *)
Definition demo_manager_two : consoleWindows :=
  ConsoleWindows (<[1 := new_window 1 21 5 9 5]> {[ 0 := demo_window ]})
                 0 0 9 0 80 24.

Definition demo_manager_three : consoleWindows :=
  ConsoleWindows (<[2 := new_window 2 21 5 30 0]> (windows demo_manager_two))
                 0 0 9 0 80 24.

End OutputsLoopsVocabulary.

(** * Properties of the byte decoding *)

Lemma byte_val_range (b : byte) : 0 <= byte_val b < 256.
Proof.
  unfold byte_val. pose proof (Byte.to_N_bounded b) as Hb.
  split; [apply N2Z.is_nonneg | lia].
Qed.

Lemma slice_length (a b : nat) (bs : list byte) :
  (length (slice a b bs) <= b - a)%nat.
Proof. unfold slice. rewrite length_take. lia. Qed.

(** A slice inside a slice is a slice of the whole. *)
Lemma slice_slice (a b i j : nat) (bs : list byte) :
  (i <= j)%nat -> (a + j <= b)%nat ->
  slice i j (slice a b bs) = slice (a + i) (a + j) bs.
Proof.
  intros Hij Hjb. unfold slice.
  rewrite skipn_firstn_comm, take_take, drop_drop.
  f_equal; lia.
Qed.

Lemma testbit_top (n k : Z) :
  0 <= k -> 0 <= n < 2 ^ (k + 1) -> Z.testbit n k = (2 ^ k <=? n).
Proof.
  intros Hk Hn.
  assert (Hp : 0 < 2 ^ k) by (apply Z.pow_pos_nonneg; lia).
  replace (2 ^ (k + 1)) with (2 * 2 ^ k) in Hn
    by (rewrite Z.pow_add_r by lia; lia).
  pose proof (Z.testbit_spec' n k Hk) as Hs.
  assert (Hq : n / 2 ^ k = if 2 ^ k <=? n then 1 else 0).
  { destruct (Z.leb_spec (2 ^ k) n).
    - symmetry. apply Z.div_unique with (r := n - 2 ^ k); lia.
    - apply Z.div_small; lia. }
  rewrite Hq in Hs.
  destruct (Z.testbit n k), (2 ^ k <=? n); simpl in Hs;
    try reflexivity; discriminate.
Qed.

(** The explicit values of [int.from_bytes] on one and two bytes. *)
Lemma int_from_bytes_u8 (b : byte) : int_from_bytes [b] false = byte_val b.
Proof. unfold int_from_bytes. simpl. lia. Qed.

Lemma int_from_bytes_u16 (lo hi : byte) :
  int_from_bytes [lo; hi] false = byte_val lo + 256 * byte_val hi.
Proof. unfold int_from_bytes. simpl. lia. Qed.

Lemma int_from_bytes_s8 (b : byte) :
  int_from_bytes [b] true =
  if 128 <=? byte_val b then byte_val b - 256 else byte_val b.
Proof.
  pose proof (byte_val_range b).
  unfold int_from_bytes. cbn [little_endian length andb].
  replace (byte_val b + 256 * 0) with (byte_val b) by lia.
  change (8 * Z.of_nat 1 - 1) with 7. change (8 * Z.of_nat 1) with 8.
  rewrite (testbit_top (byte_val b) 7) by (simpl; lia).
  reflexivity.
Qed.

Lemma int_from_bytes_s16 (lo hi : byte) :
  int_from_bytes [lo; hi] true =
  let u := byte_val lo + 256 * byte_val hi in
  if 32768 <=? u then u - 65536 else u.
Proof.
  pose proof (byte_val_range lo). pose proof (byte_val_range hi).
  unfold int_from_bytes. cbn [little_endian length andb].
  replace (byte_val lo + 256 * (byte_val hi + 256 * 0))
    with (byte_val lo + 256 * byte_val hi) by lia.
  change (8 * Z.of_nat 2 - 1) with 15. change (8 * Z.of_nat 2) with 16.
  rewrite (testbit_top (byte_val lo + 256 * byte_val hi) 15) by (simpl; lia).
  reflexivity.
Qed.

(** A signed read of at most two bytes is a 16-bit signed integer, an
    unsigned read of at most one byte an 8-bit unsigned one. *)
Lemma int_from_bytes_signed_range (bs : list byte) :
  (length bs <= 2)%nat -> -32768 <= int_from_bytes bs true < 32768.
Proof.
  intros Hl. destruct bs as [|lo [|hi [|? ?]]]; simpl in Hl; try lia.
  - vm_compute. split; [discriminate | reflexivity].
  - rewrite int_from_bytes_s8. pose proof (byte_val_range lo).
    destruct (128 <=? byte_val lo); lia.
  - rewrite int_from_bytes_s16. cbv zeta.
    pose proof (byte_val_range lo). pose proof (byte_val_range hi).
    destruct (Z.leb_spec 32768 (byte_val lo + 256 * byte_val hi)); lia.
Qed.

Lemma int_from_bytes_unsigned_range (bs : list byte) :
  (length bs <= 1)%nat -> 0 <= int_from_bytes bs false < 256.
Proof.
  intros Hl. destruct bs as [|b [|? ?]]; simpl in Hl; try lia.
  - vm_compute. split; [discriminate | reflexivity].
  - rewrite int_from_bytes_u8. apply byte_val_range.
Qed.

(** ** The offset table of the wire format *)

Lemma u16_le_add (lo hi : byte) :
  u16_le lo hi = byte_val lo + 256 * byte_val hi.
Proof.
  pose proof (byte_val_range lo) as Hlo.
  unfold u16_le. rewrite Z.shiftl_mul_pow2 by lia.
  assert (Hland : Z.land (byte_val lo) (byte_val hi * 2 ^ 8) = 0).
  { apply Z.bits_inj'. intros n Hn.
    rewrite Z.land_spec, Z.bits_0.
    destruct (Z.lt_ge_cases n 8) as [Hlt | Hge].
    - rewrite (Z.mul_pow2_bits_low _ 8 n Hlt). apply andb_false_r.
    - assert (Hb : Z.testbit (byte_val lo) n = false).
      { apply Z.testbit_false; [lia |].
        rewrite Z.div_small; [reflexivity |].
        split; [lia |].
        apply Z.lt_le_trans with (2 ^ 8); [simpl; lia |].
        apply Z.pow_le_mono_r; lia. }
      rewrite Hb. reflexivity. }
  pose proof (Z.add_lor_land (byte_val lo) (byte_val hi * 2 ^ 8)) as Hadd.
  rewrite Hland in Hadd. change (2 ^ 8) with 256 in *. lia.
Qed.

Lemma u16_le_range (lo hi : byte) : 0 <= u16_le lo hi < 65536.
Proof.
  rewrite u16_le_add.
  pose proof (byte_val_range lo). pose proof (byte_val_range hi). lia.
Qed.

Lemma int_from_bytes_u16_le (lo hi : byte) :
  int_from_bytes [lo; hi] false = u16_le lo hi.
Proof. rewrite int_from_bytes_u16, u16_le_add. reflexivity. Qed.

Lemma int_from_bytes_s16_le (lo hi : byte) :
  int_from_bytes [lo; hi] true = s16_le lo hi.
Proof.
  rewrite int_from_bytes_s16. cbv zeta. unfold s16_le.
  pose proof (u16_le_range lo hi) as Hu. rewrite <- u16_le_add.
  change (2 ^ 15) with 32768. change (2 ^ 16) with 65536.
  destruct (Z.leb_spec 32768 (u16_le lo hi)) as [Hs | Hs].
  - replace (u16_le lo hi + 32768)
      with (u16_le lo hi - 32768 + 1 * 65536) by lia.
    rewrite Z.mod_add by lia. rewrite Z.mod_small by lia. lia.
  - rewrite Z.mod_small by lia. lia.
Qed.

(** ** Floating-point range of a centi-unit field *)

Lemma all_from_spec (p : Z -> bool) (lo : Z) (n : nat) :
  all_from p lo n = true ->
  forall z, lo <= z < lo + Z.of_nat n -> p z = true.
Proof.
  revert lo. induction n as [|k IH]; intros lo Hall z Hz.
  - lia.
  - cbn [all_from] in Hall. apply andb_prop in Hall as [Hlo Hrest].
    destruct (Z.eq_dec z lo) as [-> | Hne]; [exact Hlo |].
    apply (IH (lo + 1) Hrest). lia.
Qed.

(** Every 16-bit signed integer divided by [100.0] lies between the floats
    [-327.68] and [327.67]: all 65536 quotients are evaluated. *)
Lemma centi_range (n : Z) :
  -32768 <= n < 32768 -> centi_in_range n = true.
Proof.
  intros Hn.
  apply (all_from_spec centi_in_range (-32768) (Z.to_nat 65536)).
  - vm_compute. reflexivity.
  - rewrite Z2Nat.id by lia. lia.
Qed.

(** * Properties of main.py *)
Section MainDecoding.
Import Main.

Example ex_payload_fields :
  (temp ex_payload, humidity ex_payload, battery_v ex_payload,
   battery ex_payload, count ex_payload)
  = (1%float, 65.28%float, 3.556%float, 60, 1).
Proof. vm_compute. reflexivity. Qed.

(** A payload of at least 14 bytes, seen through its bytes 6 to 13. *)
Lemma payload_bytes (adv_atc : list byte) :
  (14 <= length adv_atc)%nat ->
  slice 6 8 adv_atc = [byte_at adv_atc 6; byte_at adv_atc 7] /\
  slice 8 10 adv_atc = [byte_at adv_atc 8; byte_at adv_atc 9] /\
  slice 10 12 adv_atc = [byte_at adv_atc 10; byte_at adv_atc 11] /\
  slice 12 13 adv_atc = [byte_at adv_atc 12] /\
  slice 13 14 adv_atc = [byte_at adv_atc 13].
Proof.
  intros Hlen.
  do 14 (destruct adv_atc as [|? adv_atc]; [simpl in Hlen; lia |]).
  repeat split; reflexivity.
Qed.

(** C2. For a service-data payload of at least 14 bytes the fields are the
    ones of the offset table: temperature is the signed little-endian
    16-bit integer of bytes 6-7 divided by 100.0, humidity the signed one
    of bytes 8-9 divided by 100.0, battery voltage the unsigned one of
    bytes 10-11 divided by 1000.0, battery percent the byte at offset 12
    and the sequence counter the byte at offset 13. *)
Theorem fields_follow_offset_table (adv_atc : list byte) :
  (14 <= length adv_atc)%nat ->
  temp adv_atc =
    PrimFloat.div
      (float_of_Z (s16_le (byte_at adv_atc 6) (byte_at adv_atc 7))) 100 /\
  humidity adv_atc =
    PrimFloat.div
      (float_of_Z (s16_le (byte_at adv_atc 8) (byte_at adv_atc 9))) 100 /\
  battery_v adv_atc =
    PrimFloat.div
      (float_of_Z (u16_le (byte_at adv_atc 10) (byte_at adv_atc 11))) 1000 /\
  battery adv_atc = byte_val (byte_at adv_atc 12) /\
  count adv_atc = byte_val (byte_at adv_atc 13).
Proof.
  intros Hlen.
  destruct (payload_bytes adv_atc Hlen) as (H6 & H8 & H10 & H12 & H13).
  unfold temp, humidity, battery_v, battery, count.
  rewrite H6, H8, H10, H12, H13.
  rewrite !int_from_bytes_s16_le, int_from_bytes_u16_le, !int_from_bytes_u8.
  repeat split; reflexivity.
Qed.

Lemma fields_follow_offset_table_witness :
  temp ex_payload =
    PrimFloat.div
      (float_of_Z (s16_le (byte_at ex_payload 6) (byte_at ex_payload 7))) 100 /\
  humidity ex_payload =
    PrimFloat.div
      (float_of_Z (s16_le (byte_at ex_payload 8) (byte_at ex_payload 9))) 100 /\
  battery_v ex_payload =
    PrimFloat.div
      (float_of_Z (u16_le (byte_at ex_payload 10) (byte_at ex_payload 11))) 1000 /\
  battery ex_payload = byte_val (byte_at ex_payload 12) /\
  count ex_payload = byte_val (byte_at ex_payload 13).
Proof. apply (fields_follow_offset_table ex_payload). simpl. lia. Defined.

(** The fields read bytes 6 to 13 only. *)
Lemma fields_depend_on_slice (adv_atc adv_atc' : list byte) :
  slice 6 14 adv_atc = slice 6 14 adv_atc' ->
  temp adv_atc = temp adv_atc' /\
  humidity adv_atc = humidity adv_atc' /\
  battery_v adv_atc = battery_v adv_atc' /\
  battery adv_atc = battery adv_atc' /\
  count adv_atc = count adv_atc'.
Proof.
  intros Heq.
  assert (Hs : forall i j, (i <= j)%nat -> (6 + j <= 14)%nat ->
               slice (6 + i) (6 + j) adv_atc = slice (6 + i) (6 + j) adv_atc').
  { intros i j Hij Hj.
    rewrite <- !(slice_slice 6 14 i j) by assumption. now rewrite Heq. }
  pose proof (Hs 0 2 ltac:(lia) ltac:(lia))%nat as H6.
  pose proof (Hs 2 4 ltac:(lia) ltac:(lia))%nat as H8.
  pose proof (Hs 4 6 ltac:(lia) ltac:(lia))%nat as H10.
  pose proof (Hs 6 7 ltac:(lia) ltac:(lia))%nat as H12.
  pose proof (Hs 7 8 ltac:(lia) ltac:(lia))%nat as H13.
  cbn [Nat.add] in H6, H8, H10, H12, H13.
  unfold temp, humidity, battery_v, battery, count.
  rewrite H6, H8, H10, H12, H13.
  repeat split; reflexivity.
Qed.

Lemma signed_field_in_range (a : nat) (adv_atc : list byte) :
  centi_in_range (int_from_bytes (slice a (a + 2) adv_atc) true) = true.
Proof.
  apply centi_range, int_from_bytes_signed_range.
  pose proof (slice_length a (a + 2) adv_atc). lia.
Qed.

(** C8, as the code has it. Decoding is a function of bytes 6 to 13 of the
    payload (equal slices give equal fields), temperature and humidity lie
    between the floats -327.68 and 327.67, and battery percent is a byte:
    it lies in [0, 255], the code does not bound it by 100. *)
Theorem fields_deterministic_and_bounded (adv_atc adv_atc' : list byte) :
  (slice 6 14 adv_atc = slice 6 14 adv_atc' ->
   temp adv_atc = temp adv_atc' /\
   humidity adv_atc = humidity adv_atc' /\
   battery_v adv_atc = battery_v adv_atc' /\
   battery adv_atc = battery adv_atc' /\
   count adv_atc = count adv_atc') /\
  PrimFloat.leb (-327.68)%float (temp adv_atc) = true /\
  PrimFloat.leb (temp adv_atc) 327.67%float = true /\
  PrimFloat.leb (-327.68)%float (humidity adv_atc) = true /\
  PrimFloat.leb (humidity adv_atc) 327.67%float = true /\
  0 <= battery adv_atc <= 255.
Proof.
  split; [apply fields_depend_on_slice |].
  pose proof (signed_field_in_range 6 adv_atc) as Ht.
  pose proof (signed_field_in_range 8 adv_atc) as Hh.
  apply andb_prop in Ht as [Ht1 Ht2]. apply andb_prop in Hh as [Hh1 Hh2].
  repeat split; try assumption;
    pose proof (int_from_bytes_unsigned_range (slice 12 13 adv_atc)
                  (slice_length 12 13 adv_atc)); unfold battery; lia.
Qed.

(** C8 as stated fails: a valid payload decodes to a battery percent of
    255, outside [0, 100]. *)
Lemma battery_percent_exceeds_100 :
  (14 <= length full_battery_byte)%nat /\
  battery full_battery_byte = 255 /\
  ~ (0 <= battery full_battery_byte <= 100).
Proof.
  split; [simpl; lia |].
  split; [reflexivity |].
  change (battery full_battery_byte) with 255. lia.
Qed.

End MainDecoding.

Section MainCallback.
Import Main.

Lemma print_texts (ts : list text) (st : state) :
  foldl (fun s t => print_text t s) st ts =
  State (atc_counters st) (atc_date st) (atc_devices st)
        (Position (pos_x (print_pos st))
                  (pos_y (print_pos st) + Z.of_nat (length ts)))
        (terminal st ++ render (pos_x (print_pos st)) (pos_y (print_pos st)) ts).
Proof.
  revert st. induction ts as [|t ts IH]; intros [cs ds vs [px py] out].
  - cbn. rewrite Z.add_0_r, app_nil_r. reflexivity.
  - cbn [foldl]. rewrite IH. cbn [print_text atc_counters atc_date
      atc_devices print_pos terminal pos_x pos_y render length].
    rewrite <- app_assoc. cbn [app]. f_equal. f_equal. lia.
Qed.

Lemma update_eq (addr : string) (nm : option string) (e : device_entry)
    (adv_atc : list byte) (rssi : Z) (date_now : datetime) (st : state) :
  let ts := rows nm adv_atc rssi date_now
            ++ duration_row (date_diff date_now (atc_date st !! addr)) in
  update addr nm e adv_atc rssi date_now st =
  State (<[addr := count adv_atc]> (atc_counters st))
        (<[addr := date_now]> (atc_date st))
        (atc_devices st)
        (Position (posx (id e)) (posy (id e) + Z.of_nat (length ts)))
        (terminal st ++ render (posx (id e)) (posy (id e)) ts).
Proof. intros ts. unfold update. rewrite print_texts. reflexivity. Qed.

Lemma synthetic_name_truthy (addr : string) :
  name_truthy (Some (synthetic_name addr)) = true.
Proof. reflexivity. Qed.

(** Lines 42-54 on a state: counters, timestamps and cursor are kept, the
    terminal gains at most the first clear, and the entry of the address
    has a non-empty name afterwards unless it was stored before. *)
Lemma sighting (addr : string) (nm : option string) (st : state) :
  let '(e, st1) := register addr nm st in
  let '(nm', st2) := resolve_name addr nm e st1 in
  atc_counters st2 = atc_counters st /\
  atc_date st2 = atc_date st /\
  print_pos st2 = print_pos st /\
  terminal st2 = terminal st ++ clear_on_first addr st /\
  (exists e2, atc_devices st2 = <[addr := e2]> (atc_devices st) /\
              id e2 = id e /\
              (name_truthy (name e2) = true \/
               atc_devices st !! addr = Some e2)) /\
  (forall e0, atc_devices st !! addr = Some e0 ->
              name_truthy (name e0) = true -> st2 = st).
Proof.
  unfold register, resolve_name, clear_on_first.
  destruct st as [cs ds vs p out]. cbn [atc_devices].
  destruct (vs !! addr) as [e0|] eqn:Hlk.
  - destruct (name_truthy nm) eqn:Hnm; cbn.
    + rewrite app_nil_r. repeat split; try reflexivity.
      exists e0. rewrite insert_id by assumption. auto.
    + destruct (name_truthy (name e0)) eqn:He0; cbn.
      * rewrite app_nil_r. repeat split; try reflexivity.
        exists e0. rewrite insert_id by assumption. auto.
      * rewrite app_nil_r. repeat split; try reflexivity.
        -- eexists. split; [reflexivity |]. split; [reflexivity |].
           left. reflexivity.
        -- intros e1 [= <-] He1. congruence.
  - assert (Hno : forall e0 : device_entry, None = Some e0 ->
              name_truthy (name e0) = true -> False) by (intros; discriminate).
    destruct (decide (size vs = 0%nat)); cbn;
      destruct (name_truthy nm) eqn:Hnm; cbn;
      rewrite ?app_nil_r;
      repeat split; try reflexivity; try (intros; discriminate).
    all: try (eexists; split; [reflexivity |]; split; [reflexivity |];
              left; assumption).
    all: rewrite insert_insert_eq;
         eexists; split; [reflexivity |]; split; [reflexivity |];
         left; reflexivity.
Qed.

Lemma callback_absent device advertising_data date_now st :
  service_data advertising_data !! ATC_SERVICE = None ->
  callback device advertising_data date_now st = st.
Proof. intros H. unfold callback. rewrite H. reflexivity. Qed.

Lemma callback_empty device advertising_data date_now st :
  service_data advertising_data !! ATC_SERVICE = Some [] ->
  callback device advertising_data date_now st = st.
Proof. intros H. unfold callback. rewrite H. reflexivity. Qed.

Lemma callback_nonempty device advertising_data date_now st adv_atc :
  service_data advertising_data !! ATC_SERVICE = Some adv_atc ->
  (0 < length adv_atc)%nat ->
  callback device advertising_data date_now st =
  let addr := address device in
  let '(e, st) := register addr (local_name advertising_data) st in
  let '(nm, st) := resolve_name addr (local_name advertising_data) e st in
  if decide (atc_counters st !! addr = Some (count adv_atc)) then st
  else update addr nm e adv_atc (rssi advertising_data) date_now st.
Proof.
  intros H Hlen. unfold callback. rewrite H.
  destruct adv_atc; [simpl in Hlen; lia | reflexivity].
Qed.

(** An unchanged counter: nothing happens (the device is known, its name
    is stored). *)
Lemma callback_no_change device advertising_data date_now st adv_atc :
  registry_ok st ->
  service_data advertising_data !! ATC_SERVICE = Some adv_atc ->
  (0 < length adv_atc)%nat ->
  atc_counters st !! address device = Some (count adv_atc) ->
  callback device advertising_data date_now st = st.
Proof.
  intros [Hnames Hdom] H Hlen Hc.
  rewrite (callback_nonempty _ _ _ _ _ H Hlen). cbv zeta.
  pose proof (sighting (address device) (local_name advertising_data) st) as Hs.
  destruct (register _ _ st) as [e st1].
  destruct (resolve_name _ _ e st1) as [nm st2].
  destruct Hs as (Hcs & _ & _ & _ & _ & Hsame).
  rewrite Hcs. rewrite decide_True by assumption.
  destruct (Hdom (address device)) as [e0 He0]; [rewrite Hc; eauto |].
  apply (Hsame e0 He0). apply (Hnames _ _ He0).
Qed.

(** A changed counter: counter and timestamp of the address are stored
    and the rows are written at the slot of the device. *)
Lemma callback_change device advertising_data date_now st adv_atc :
  service_data advertising_data !! ATC_SERVICE = Some adv_atc ->
  (0 < length adv_atc)%nat ->
  atc_counters st !! address device <> Some (count adv_atc) ->
  exists nm e,
    let st' := callback device advertising_data date_now st in
    atc_counters st' = <[address device := count adv_atc]> (atc_counters st) /\
    atc_date st' = <[address device := date_now]> (atc_date st) /\
    atc_devices st' = <[address device := e]> (atc_devices st) /\
    (name_truthy (name e) = true \/
     atc_devices st !! address device = Some e) /\
    terminal st' =
      terminal st ++ clear_on_first (address device) st
      ++ render (posx (id e)) (posy (id e))
           (rows nm adv_atc (rssi advertising_data) date_now
            ++ duration_row
                 (date_diff date_now (atc_date st !! address device))).
Proof.
  intros H Hlen Hc.
  rewrite (callback_nonempty _ _ _ _ _ H Hlen). cbv zeta.
  pose proof (sighting (address device) (local_name advertising_data) st) as Hs.
  destruct (register _ _ st) as [e st1].
  destruct (resolve_name _ _ e st1) as [nm st2].
  destruct Hs as (Hcs & Hds & _ & Hout & (e2 & Hvs & Hid & He2) & _).
  rewrite Hcs. rewrite decide_False by assumption.
  exists nm, e2. rewrite update_eq. cbn.
  rewrite Hcs, Hds, Hout, Hvs, Hid, <- app_assoc. auto.
Qed.

Lemma registry_ok_initial : registry_ok initial.
Proof.
  split; cbn; intros a.
  - intros e He. rewrite lookup_empty in He. discriminate.
  - rewrite lookup_empty. intros [? ?]. discriminate.
Qed.

Lemma registry_ok_callback device advertising_data date_now st :
  registry_ok st ->
  registry_ok (callback device advertising_data date_now st).
Proof.
  intros Hok.
  destruct (service_data advertising_data !! ATC_SERVICE) as [adv_atc|] eqn:H;
    [| now rewrite callback_absent].
  destruct adv_atc as [|b bs] eqn:Hadv; [now rewrite callback_empty |].
  rewrite <- Hadv in H.
  assert (Hlen : (0 < length adv_atc)%nat) by (subst; simpl; lia).
  clear Hadv b bs.
  destruct (decide (atc_counters st !! address device = Some (count adv_atc)))
    as [Hc | Hc].
  - now rewrite (callback_no_change _ _ _ _ _ Hok H Hlen Hc).
  - destruct (callback_change _ _ date_now st _ H Hlen Hc)
      as (nm & e2 & Hcs & _ & Hvs & He2 & _).
    destruct Hok as [Hnames Hdom]. split.
    + intros a e0. rewrite Hvs.
      destruct (decide (address device = a)) as [<- | Hne].
      * rewrite lookup_insert_eq. intros [= <-].
        destruct He2 as [? | He2]; [assumption | apply (Hnames _ _ He2)].
      * rewrite lookup_insert_ne by assumption. apply Hnames.
    + intros a. rewrite Hcs, Hvs.
      destruct (decide (address device = a)) as [<- | Hne].
      * rewrite !lookup_insert_eq. eauto.
      * rewrite !lookup_insert_ne by assumption. apply Hdom.
Qed.

Lemma reachable_ok (st : state) : reachable st -> registry_ok st.
Proof.
  induction 1; [apply registry_ok_initial | now apply registry_ok_callback].
Qed.

Lemma shown_change device advertising_data date_now st adv_atc :
  service_data advertising_data !! ATC_SERVICE = Some adv_atc ->
  (0 < length adv_atc)%nat ->
  atc_counters st !! address device <> Some (count adv_atc) ->
  exists nm i,
    shown device advertising_data date_now st =
      clear_on_first (address device) st
      ++ render (posx i) (posy i)
           (rows nm adv_atc (rssi advertising_data) date_now
            ++ duration_row
                 (date_diff date_now (atc_date st !! address device))).
Proof.
  intros H Hlen Hc.
  destruct (callback_change _ _ date_now st _ H Hlen Hc)
    as (nm & e & _ & _ & _ & _ & Hout).
  exists nm, (id e). unfold shown. rewrite Hout.
  apply drop_app_length.
Qed.

(** ** Rounding *)

Lemma round_div_nearest (n d : Z) :
  0 < d -> 2 * Z.abs (round_div n d * d - n) <= d.
Proof.
  intros Hd. unfold round_div.
  pose proof (Z.div_mod n d ltac:(lia)) as Hdm.
  pose proof (Z.mod_pos_bound n d Hd) as Hr.
  set (q := n / d) in *. set (r := n mod d) in *.
  assert (Hq : q * d - n = - r) by lia.
  assert (Hq1 : (q + 1) * d - n = d - r) by lia.
  destruct (Z.ltb_spec (2 * r) d);
    [| destruct (Z.ltb_spec d (2 * r)); [| destruct (Z.even q)]];
    rewrite ?Hq, ?Hq1; lia.
Qed.

Lemma round_div_zero (n : Z) :
  round_div n 1000000 = 0 <-> -500000 <= n <= 500000.
Proof.
  unfold round_div.
  pose proof (Z.div_mod n 1000000 ltac:(lia)) as Hdm.
  pose proof (Z.mod_pos_bound n 1000000 ltac:(lia)) as Hr.
  destruct (Z.ltb_spec (2 * (n mod 1000000)) 1000000);
    [lia | destruct (Z.ltb_spec 1000000 (2 * (n mod 1000000))); [lia |]].
  destruct (Z.even (n / 1000000)) eqn:Hev; split; intros Hn; try lia;
    assert (Hq : n / 1000000 = 0 \/ n / 1000000 = -1) by lia;
    destruct Hq as [Hq | Hq]; try lia; rewrite Hq in Hev; discriminate.
Qed.

(** A tie is resolved to the even neighbour. *)
Lemma round_div_tie_even (n d : Z) :
  0 < d -> 2 * Z.abs (round_div n d * d - n) = d ->
  Z.even (round_div n d) = true.
Proof.
  intros Hd. unfold round_div.
  pose proof (Z.div_mod n d ltac:(lia)) as Hdm.
  pose proof (Z.mod_pos_bound n d Hd) as Hr.
  set (q := n / d) in *. set (r := n mod d) in *.
  assert (Hq : q * d - n = - r) by lia.
  assert (Hq1 : (q + 1) * d - n = d - r) by lia.
  destruct (Z.ltb_spec (2 * r) d);
    [| destruct (Z.ltb_spec d (2 * r)); [| destruct (Z.even q) eqn:Hev]];
    rewrite ?Hq, ?Hq1; try lia; intros _.
  - exact Hev.
  - rewrite Z.even_add, Hev. reflexivity.
Qed.

(** The nearest integer, with ties to even, is unique. *)
Lemma round_div_unique (n d r : Z) :
  0 < d ->
  2 * Z.abs (r * d - n) <= d ->
  (2 * Z.abs (r * d - n) = d -> Z.even r = true) ->
  r = round_div n d.
Proof.
  intros Hd Hnear Htie.
  pose proof (round_div_nearest n d Hd) as Hnear'.
  pose proof (round_div_tie_even n d Hd) as Htie'.
  set (r' := round_div n d) in *.
  assert (Hdiff : Z.abs (r - r') * d <= d).
  { assert (Z.abs (r - r') * d = Z.abs ((r * d - n) - (r' * d - n))) as ->
      by (rewrite <- (Z.abs_eq d) at 1 by lia; rewrite <- Z.abs_mul; f_equal; ring).
    lia. }
  assert (Hle : Z.abs (r - r') <= 1) by nia.
  destruct (Z.eq_dec r r') as [? | Hne]; [assumption | exfalso].
  assert (Hone : r = r' + 1 \/ r' = r + 1) by lia.
  assert (Hboth : Z.even r = true /\ Z.even r' = true).
  { destruct Hone as [-> | Hr'].
    - assert ((r' + 1) * d - n = (r' * d - n) + d) by ring.
      split; [apply Htie | apply Htie']; lia.
    - rewrite Hr' in *.
      assert ((r + 1) * d - n = (r * d - n) + d) by ring.
      split; [apply Htie | apply Htie']; lia. }
  destruct Hboth as [He He'].
  destruct Hone as [-> | ->]; rewrite Z.even_add in *;
    [rewrite He' in He | rewrite He in He']; discriminate.
Qed.

Lemma round_div_exact (c d : Z) : 0 < d -> round_div (c * d) d = c.
Proof.
  intros Hd. symmetry. apply round_div_unique; [assumption | |];
    replace (c * d - c * d) with 0 by ring; cbn; lia.
Qed.

Lemma round_div_opp (n d : Z) : 0 < d -> round_div (- n) d = - round_div n d.
Proof.
  intros Hd. symmetry. apply round_div_unique; [assumption | |].
  - replace (- round_div n d * d - - n) with (- (round_div n d * d - n)) by ring.
    rewrite Z.abs_opp. now apply round_div_nearest.
  - replace (- round_div n d * d - - n) with (- (round_div n d * d - n)) by ring.
    rewrite Z.abs_opp, Z.even_opp. now apply round_div_tie_even.
Qed.

(** Monotonicity at an integer: a quotient of at least [c] rounds to at
    least [c]. *)
Lemma round_div_ge (n d c : Z) : 0 < d -> c * d <= n -> c <= round_div n d.
Proof.
  intros Hd Hc. pose proof (round_div_nearest n d Hd) as Hn.
  set (r := round_div n d) in *.
  assert (H2 : (2 * c - 1) * d <= 2 * r * d) by lia.
  assert (2 * c - 1 <= 2 * r) by (apply (Z.mul_le_mono_pos_r _ _ d); assumption).
  lia.
Qed.

(** Rounding to a grid of step [1 / (2 * s)] finer than [2 / d] first does
    not change the nearest integer of [n / d] for an even [d]. *)
Lemma round_div_twice (n d s : Z) :
  0 < d -> Z.even d = true -> 0 < s -> d < 4 * s ->
  round_div (round_div (n * (2 * s)) d) (2 * s) = round_div n d.
Proof.
  intros Hd Hev Hs Hfine.
  apply Z.even_spec in Hev as [d' Hd'].
  pose proof (round_div_nearest (n * (2 * s)) d Hd) as Hm.
  set (m := round_div (n * (2 * s)) d) in *.
  pose proof (round_div_nearest m (2 * s) ltac:(lia)) as Hr.
  pose proof (round_div_tie_even m (2 * s) ltac:(lia)) as Hrt.
  set (r := round_div m (2 * s)) in *.
  assert (Hsplit : (r * d - n) * (2 * s)
                   = (r * (2 * s) - m) * d + (m * d - n * (2 * s))) by ring.
  assert (Hbound : Z.abs (r * d - n) * (2 * s) <= s * d + d').
  { assert (Z.abs (r * d - n) * (2 * s) = Z.abs ((r * d - n) * (2 * s))) as ->
      by (rewrite Z.abs_mul, (Z.abs_eq (2 * s)) by lia; reflexivity).
    rewrite Hsplit.
    eapply Z.le_trans; [apply Z.abs_triangle |].
    rewrite Z.abs_mul, (Z.abs_eq d) by lia.
    assert (Z.abs (r * (2 * s) - m) * d <= s * d)
      by (apply Z.mul_le_mono_nonneg_r; lia).
    lia. }
  assert (Hnear : Z.abs (r * d - n) <= d').
  { destruct (Z.le_gt_cases (Z.abs (r * d - n)) d') as [? | Hgt];
      [assumption | exfalso].
    assert ((d' + 1) * (2 * s) <= Z.abs (r * d - n) * (2 * s))
      by (apply Z.mul_le_mono_nonneg_r; lia).
    nia. }
  apply round_div_unique; [assumption | lia |].
  intros Htie.
  assert (Hx : r * d - n = d' \/ r * d - n = - d') by lia.
  assert (Hexact : exists c, n * (2 * s) = c * d /\
                             2 * Z.abs (r * (2 * s) - c) = 2 * s).
  { destruct Hx as [Hx | Hx].
    - exists ((2 * r - 1) * s). split; [nia |].
      replace (r * (2 * s) - (2 * r - 1) * s) with s by ring. lia.
    - exists ((2 * r + 1) * s). split; [nia |].
      replace (r * (2 * s) - (2 * r + 1) * s) with (- s) by ring. lia. }
  destruct Hexact as (c & Hc & Hhalf).
  apply Hrt. subst m. rewrite Hc, round_div_exact by assumption. exact Hhalf.
Qed.

Lemma log2_quot_le (a d : Z) :
  0 < a -> 0 < d -> 0 <= log2_quot a d -> 2 ^ log2_quot a d * d <= a.
Proof.
  intros Ha Hd. unfold log2_quot.
  pose proof (Z.log2_spec a Ha) as [Hal _].
  pose proof (Z.log2_spec d Hd) as [_ Hdu].
  pose proof (Z.log2_nonneg a). pose proof (Z.log2_nonneg d).
  set (la := Z.log2 a) in *. set (ld := Z.log2 d) in *.
  destruct (Z.leb_spec (d * 2 ^ Z.max (la - ld) 0)
                       (a * 2 ^ Z.max (- (la - ld)) 0)) as [Hle | Hgt];
    intros Hj.
  - rewrite Z.max_l in Hle by lia. rewrite Z.max_r in Hle by lia.
    change (2 ^ 0) with 1 in Hle. lia.
  - assert (Hpow : 2 ^ (la - ld - 1) * 2 ^ Z.succ ld = 2 ^ la).
    { rewrite <- Z.pow_add_r by lia. f_equal. lia. }
    assert (Hp : 0 < 2 ^ (la - ld - 1)) by (apply Z.pow_pos_nonneg; lia).
    assert (2 ^ (la - ld - 1) * d <= 2 ^ (la - ld - 1) * 2 ^ Z.succ ld)
      by (apply Z.mul_le_mono_nonneg_l; lia).
    lia.
Qed.

Lemma round_total_seconds_small (td : Z) :
  Z.abs td < 2 ^ 34 * 1000000 ->
  round_total_seconds td = round_div td 1000000.
Proof.
  intros Hsmall. unfold round_total_seconds, round_true_divide.
  destruct (Z.eqb_spec td 0) as [-> | Hne]; [reflexivity |].
  assert (Ha : 0 < Z.abs td) by lia.
  unfold true_divide, round_float.
  set (j := log2_quot (Z.abs td) 1000000).
  assert (Hj : j <= 33).
  { destruct (Z.le_gt_cases j 33) as [? | Hgt]; [assumption | exfalso].
    pose proof (log2_quot_le (Z.abs td) 1000000 Ha ltac:(lia) ltac:(fold j; lia))
      as Hle. fold j in Hle.
    assert (2 ^ 34 <= 2 ^ j) by (apply Z.pow_le_mono_r; lia).
    assert (2 ^ 34 * 1000000 <= 2 ^ j * 1000000)
      by (apply Z.mul_le_mono_nonneg_r; lia).
    lia. }
  destruct (Z.leb_spec 0 (52 - j)) as [_ | ?]; [| lia].
  assert (Hk : 2 ^ (52 - j) = 2 * 2 ^ (51 - j)).
  { replace (52 - j) with (Z.succ (51 - j)) by lia.
    rewrite Z.pow_succ_r by lia. reflexivity. }
  assert (Hfine : 2 ^ 18 <= 2 ^ (51 - j)) by (apply Z.pow_le_mono_r; lia).
  change (2 ^ 18) with 262144 in Hfine.
  rewrite Hk, round_div_twice by (try reflexivity; lia).
  destruct (Z.abs_spec td) as [[Hpos ->] | [Hneg ->]].
  - rewrite Z.sgn_pos by lia. lia.
  - rewrite Z.sgn_neg by lia. rewrite round_div_opp by lia. lia.
Qed.

Lemma round_total_seconds_zero (td : Z) :
  round_total_seconds td = 0 <-> round_div td 1000000 = 0.
Proof.
  destruct (Z.lt_ge_cases (Z.abs td) (2 ^ 34 * 1000000)) as [Hsmall | Hbig].
  { now rewrite round_total_seconds_small. }
  rewrite round_div_zero.
  change (2 ^ 34 * 1000000) with 17179869184000000 in Hbig.
  split; [| lia]. intros Hzero. exfalso.
  unfold round_total_seconds, round_true_divide in Hzero.
  destruct (Z.eqb_spec td 0) as [-> | Hne]; [cbn in Hbig; lia |].
  assert (Ha : 0 < Z.abs td) by lia.
  assert (Hpos : 1 <= round_float (true_divide (Z.abs td) 1000000)).
  { unfold true_divide, round_float.
    set (j := log2_quot (Z.abs td) 1000000).
    destruct (Z.leb_spec 0 (52 - j)) as [Hk | Hk].
    - assert (Hp : 0 < 2 ^ (52 - j)) by (apply Z.pow_pos_nonneg; lia).
      assert (Hm : 2 ^ (52 - j)
                   <= round_div (Z.abs td * 2 ^ (52 - j)) 1000000).
      { apply round_div_ge; [lia |].
        assert (1000000 * 2 ^ (52 - j) <= Z.abs td * 2 ^ (52 - j))
          by (apply Z.mul_le_mono_nonneg_r; lia).
        lia. }
      apply round_div_ge; lia.
    - assert (Hj : 0 <= j) by lia.
      pose proof (log2_quot_le (Z.abs td) 1000000 Ha ltac:(lia) Hj) as Hle.
      fold j in Hle.
      assert (Hp : 0 < 2 ^ (- (52 - j))) by (apply Z.pow_pos_nonneg; lia).
      assert (Hpp : 2 ^ (- (52 - j)) <= 2 ^ j) by (apply Z.pow_le_mono_r; lia).
      assert (Hm : 1 <= round_div (Z.abs td) (1000000 * 2 ^ (- (52 - j)))).
      { apply round_div_ge; [lia |].
        assert (2 ^ (- (52 - j)) * 1000000 <= 2 ^ j * 1000000)
          by (apply Z.mul_le_mono_nonneg_r; lia).
        lia. }
      nia. }
  destruct (Z.sgn_spec td) as [[? Hs] | [[? Hs] | [? Hs]]];
    rewrite Hs in Hzero; lia.
Qed.

Lemma round_div_le (n d c : Z) : 0 < d -> n <= c * d -> round_div n d <= c.
Proof.
  intros Hd Hc. pose proof (round_div_nearest n d Hd) as Hn.
  set (r := round_div n d) in *.
  assert (H2 : 2 * r * d <= (2 * c + 1) * d) by lia.
  assert (2 * r <= 2 * c + 1) by (apply (Z.mul_le_mono_pos_r _ _ d); assumption).
  lia.
Qed.

(** [log2_quot a d] is the exponent [j] with [2^j <= a / d < 2^(j+1)]. *)
Lemma log2_quot_spec (a d : Z) :
  0 < a -> 0 < d ->
  d * 2 ^ Z.max (log2_quot a d) 0 <= a * 2 ^ Z.max (- log2_quot a d) 0 /\
  a * 2 ^ Z.max (- (log2_quot a d + 1)) 0
    < d * 2 ^ Z.max (log2_quot a d + 1) 0.
Proof.
  intros Ha Hd. unfold log2_quot.
  pose proof (Z.log2_spec a Ha) as [Hal Hau].
  pose proof (Z.log2_spec d Hd) as [Hdl Hdu].
  pose proof (Z.log2_nonneg a). pose proof (Z.log2_nonneg d).
  set (la := Z.log2 a) in *. set (ld := Z.log2 d) in *.
  set (j := la - ld).
  assert (Hpos : forall e, 0 <= e -> 0 < 2 ^ e)
    by (intros; apply Z.pow_pos_nonneg; lia).
  (* below j - 1 and above j + 1, whatever the signs *)
  assert (Hlow : d * 2 ^ Z.max (j - 1) 0 <= a * 2 ^ Z.max (- (j - 1)) 0).
  { destruct (Z.le_gt_cases 1 j) as [Hj | Hj].
    - rewrite Z.max_l, Z.max_r by lia. change (2 ^ 0) with 1.
      assert (Hp : 2 ^ (j - 1) * 2 ^ Z.succ ld = 2 ^ la)
        by (rewrite <- Z.pow_add_r by lia; f_equal; lia).
      pose proof (Hpos (j - 1) ltac:(lia)).
      assert (d * 2 ^ (j - 1) <= 2 ^ Z.succ ld * 2 ^ (j - 1))
        by (apply Z.mul_le_mono_nonneg_r; lia).
      lia.
    - rewrite Z.max_r, Z.max_l by lia. change (2 ^ 0) with 1.
      assert (Hp : 2 ^ la * 2 ^ (- (j - 1)) = 2 ^ Z.succ ld)
        by (rewrite <- Z.pow_add_r by lia; f_equal; lia).
      pose proof (Hpos (- (j - 1)) ltac:(lia)).
      assert (2 ^ la * 2 ^ (- (j - 1)) <= a * 2 ^ (- (j - 1)))
        by (apply Z.mul_le_mono_nonneg_r; lia).
      lia. }
  assert (Hhigh : a * 2 ^ Z.max (- (j + 1)) 0 < d * 2 ^ Z.max (j + 1) 0).
  { destruct (Z.le_gt_cases 0 (j + 1)) as [Hj | Hj].
    - rewrite Z.max_r, Z.max_l by lia. change (2 ^ 0) with 1.
      assert (Hp : 2 ^ ld * 2 ^ (j + 1) = 2 ^ Z.succ la)
        by (rewrite <- Z.pow_add_r by lia; f_equal; lia).
      pose proof (Hpos (j + 1) ltac:(lia)).
      assert (2 ^ ld * 2 ^ (j + 1) <= d * 2 ^ (j + 1))
        by (apply Z.mul_le_mono_nonneg_r; lia).
      lia.
    - rewrite Z.max_l, Z.max_r by lia. change (2 ^ 0) with 1.
      assert (Hp : 2 ^ Z.succ la * 2 ^ (- (j + 1)) = 2 ^ ld)
        by (rewrite <- Z.pow_add_r by lia; f_equal; lia).
      pose proof (Hpos (- (j + 1)) ltac:(lia)).
      assert (a * 2 ^ (- (j + 1)) < 2 ^ Z.succ la * 2 ^ (- (j + 1)))
        by (apply Z.mul_lt_mono_pos_r; lia).
      lia. }
  destruct (Z.leb_spec (d * 2 ^ Z.max j 0) (a * 2 ^ Z.max (- j) 0))
    as [Hle | Hgt].
  - split; assumption.
  - split; [exact Hlow |].
    replace (j - 1 + 1) with j by lia. exact Hgt.
Qed.

(** The significand of the quotient float has 53 bits. *)
Lemma true_divide_significand (a d : Z) :
  0 < a -> 0 < d ->
  2 ^ 52 <= fst (true_divide a d) <= 2 ^ 53.
Proof.
  intros Ha Hd. pose proof (log2_quot_spec a d Ha Hd) as [Hlo Hhi].
  unfold true_divide. cbn [fst].
  set (j := log2_quot a d) in *.
  assert (Hpos : forall e, 0 <= e -> 0 < 2 ^ e)
    by (intros; apply Z.pow_pos_nonneg; lia).
  destruct (Z.leb_spec 0 (52 - j)) as [Hk | Hk].
  - destruct (Z.le_gt_cases 0 j) as [Hj | Hj].
    + rewrite Z.max_l, Z.max_r in Hlo by lia.
      rewrite Z.max_r, Z.max_l in Hhi by lia.
      change (2 ^ 0) with 1 in *.
      assert (H52 : 2 ^ j * 2 ^ (52 - j) = 2 ^ 52)
        by (rewrite <- Z.pow_add_r by lia; f_equal; lia).
      assert (H53 : 2 ^ (j + 1) * 2 ^ (52 - j) = 2 ^ 53)
        by (rewrite <- Z.pow_add_r by lia; f_equal; lia).
      pose proof (Hpos (52 - j) Hk).
      assert (d * 2 ^ j * 2 ^ (52 - j) <= a * 2 ^ (52 - j))
        by (apply Z.mul_le_mono_nonneg_r; lia).
      assert (a * 2 ^ (52 - j) <= d * 2 ^ (j + 1) * 2 ^ (52 - j))
        by (apply Z.mul_le_mono_nonneg_r; lia).
      split; [apply round_div_ge | apply round_div_le]; nia.
    + rewrite Z.max_r, Z.max_l in Hlo by lia.
      change (2 ^ 0) with 1 in Hlo.
      assert (H52 : 2 ^ (- j) * 2 ^ 52 = 2 ^ (52 - j))
        by (rewrite <- Z.pow_add_r by lia; f_equal; lia).
      assert (Hup : a * 2 ^ (52 - j) < d * 2 ^ 53).
      { rewrite Z.max_l, Z.max_r in Hhi by lia.
        change (2 ^ 0) with 1 in Hhi.
        assert (H53 : 2 ^ (- (j + 1)) * 2 ^ 53 = 2 ^ (52 - j))
          by (rewrite <- Z.pow_add_r by lia; f_equal; lia).
        pose proof (Hpos 53 ltac:(lia)).
        assert (a * 2 ^ (- (j + 1)) * 2 ^ 53 < d * 1 * 2 ^ 53)
          by (apply Z.mul_lt_mono_pos_r; lia).
        lia. }
      pose proof (Hpos 52 ltac:(lia)).
      assert (d * 1 * 2 ^ 52 <= a * 2 ^ (- j) * 2 ^ 52)
        by (apply Z.mul_le_mono_nonneg_r; lia).
      split; [apply round_div_ge | apply round_div_le]; nia.
  - rewrite Z.max_l, Z.max_r in Hlo by lia.
    rewrite Z.max_r, Z.max_l in Hhi by lia.
    change (2 ^ 0) with 1 in *.
    assert (H52 : 2 ^ 52 * 2 ^ (- (52 - j)) = 2 ^ j)
      by (rewrite <- Z.pow_add_r by lia; f_equal; lia).
    assert (H53 : 2 ^ 53 * 2 ^ (- (52 - j)) = 2 ^ (j + 1))
      by (rewrite <- Z.pow_add_r by lia; f_equal; lia).
    pose proof (Hpos (- (52 - j)) ltac:(lia)).
    split; [apply round_div_ge | apply round_div_le]; nia.
Qed.

(** The quotient float of the model is the quotient float of the machine:
    checked on the first 4000 microsecond counts and on 4000 counts spread
    up to [2^53], below which the count itself is a float. *)
Lemma true_divide_agrees_with_binary64 (i : Z) :
  0 <= i < 4000 ->
  true_divide_is_binary64 (i + 1) = true /\
  true_divide_is_binary64 (i * 2250000000007 + 1) = true.
Proof.
  intros Hi. split.
  - apply (all_from_spec (fun i => true_divide_is_binary64 (i + 1)) 0
             (Z.to_nat 4000)).
    + vm_compute. reflexivity.
    + rewrite Z2Nat.id by lia. lia.
  - apply (all_from_spec
             (fun i => true_divide_is_binary64 (i * 2250000000007 + 1)) 0
             (Z.to_nat 4000)).
    + vm_compute. reflexivity.
    + rewrite Z2Nat.id by lia. lia.
Qed.

(** [round_total_seconds] is the rounding of the machine: checked on 4000
    ties (every half second up to 2000 s), on their neighbours one
    microsecond above and below, and on 4000 counts spread up to [2^53]. *)
Lemma round_total_seconds_agrees_with_machine (i : Z) :
  0 <= i < 4000 ->
  round_is_machine_round (500000 * i) = true /\
  round_is_machine_round (500000 * i + 1) = true /\
  round_is_machine_round (500000 * (i + 1) - 1) = true /\
  round_is_machine_round (i * 2250000000007 + 1) = true.
Proof.
  intros Hi.
  assert (Hcheck : forall p : Z -> bool,
            all_from p 0 (Z.to_nat 4000) = true -> p i = true).
  { intros p Hall. apply (all_from_spec p 0 (Z.to_nat 4000) Hall).
    rewrite Z2Nat.id by lia. lia. }
  repeat split.
  - apply (Hcheck (fun i => round_is_machine_round (500000 * i))).
    vm_compute. reflexivity.
  - apply (Hcheck (fun i => round_is_machine_round (500000 * i + 1))).
    vm_compute. reflexivity.
  - apply (Hcheck (fun i => round_is_machine_round (500000 * (i + 1) - 1))).
    vm_compute. reflexivity.
  - apply (Hcheck (fun i => round_is_machine_round (i * 2250000000007 + 1))).
    vm_compute. reflexivity.
Qed.

(** Beyond [2^34] seconds the float has no room for the microseconds: an
    elapsed time of 18934214400.500001 s becomes the float
    18934214400.5, which rounds to the even 18934214400, while the nearest
    second is 18934214401. *)
Example round_total_seconds_far :
  round_total_seconds 18934214400500001 = 18934214400 /\
  round_div 18934214400500001 1000000 = 18934214401.
Proof. split; vm_compute; reflexivity. Qed.

Lemma date_diff_truthy_spec (date_now : datetime) (date_prev : option datetime) :
  date_diff_truthy (date_diff date_now date_prev) = true <->
  exists p, date_prev = Some p /\ round_div (date_now - p) 1000000 <> 0.
Proof.
  destruct date_prev as [p|]; cbn [date_diff date_diff_truthy].
  - unfold timedelta_of_seconds.
    pose proof (round_total_seconds_zero (date_now - p)) as Hzero.
    rewrite negb_true_iff, Z.eqb_neq. split.
    + intros Hne. exists p. split; [reflexivity |].
      intros Hz. apply Hzero in Hz. lia.
    + intros (q & [= <-] & Hne) Hz. apply Hne, Hzero. lia.
  - split; [discriminate | intros (p & Hp & _); discriminate].
Qed.

(** ** The Duration row among the rows shown *)

Lemma existsb_render (x y : Z) (ts : list text) :
  existsb is_duration (render x y ts) = existsb is_duration_text ts.
Proof.
  revert y. induction ts as [|t ts IH]; intros y; [reflexivity |].
  cbn [render existsb]. rewrite IH. reflexivity.
Qed.

Lemma existsb_clear_on_first (addr : string) (st : state) :
  existsb is_duration (clear_on_first addr st) = false.
Proof.
  unfold clear_on_first.
  destruct (atc_devices st !! addr); [reflexivity |].
  destruct (decide _); reflexivity.
Qed.

Lemma duration_shown (addr : string) (st : state) (x y : Z)
    (nm : option string) (adv_atc : list byte) (rssi : Z)
    (date_now : datetime) (d : date_diff_t) :
  existsb is_duration
    (clear_on_first addr st
     ++ render x y (rows nm adv_atc rssi date_now ++ duration_row d))
  = date_diff_truthy d.
Proof.
  rewrite existsb_app, existsb_clear_on_first, existsb_render, existsb_app.
  unfold duration_row. destruct (date_diff_truthy d); reflexivity.
Qed.

(** ** Short payloads *)

Lemma count_short (adv_atc : list byte) :
  (length adv_atc < 14)%nat -> count adv_atc = 0.
Proof.
  intros Hlen. unfold count, slice.
  rewrite drop_ge by lia. reflexivity.
Qed.

(** C1 as stated fails: a one-byte payload is decoded (all fields read as
    zero), the device is registered, its counter and timestamp are stored
    and nine rows are written. *)
Lemma short_payload_is_decoded :
  (length short_payload < 14)%nat /\
  atc_counters (callback ex_dev short_adv 1000000 initial) !! address ex_dev
    = Some 0 /\
  atc_date (callback ex_dev short_adv 1000000 initial) !! address ex_dev
    = Some 1000000 /\
  terminal (callback ex_dev short_adv 1000000 initial) =
    [ Cls;
      PrintAt 1 0 (Row 12 "device:" (VName (Some "ATC-995B")));
      PrintAt 2 0 (Rule 20);
      PrintAt 3 0 (Row 12 "temp:" (VFixed2 0 Celsius));
      PrintAt 4 0 (Row 12 "humidity:" (VFixed2 0 Percent));
      PrintAt 5 0 (Row 12 "batteryv:" (VFloat 0 Volt));
      PrintAt 6 0 (Row 12 "battery:" (VInt 0 Percent));
      PrintAt 7 0 (Row 11 "rssi:" (VInt (-60) Decibel));
      PrintAt 8 0 (Row 12 "count:" (VInt 0 NoUnit));
      PrintAt 9 0 (Row 12 "time now:" (VClock 1000000)) ].
Proof.
  split; [simpl; lia |]. repeat split; vm_compute; reflexivity.
Qed.

(** C1, as the code has it. Service data of fewer than 14 bytes is dropped
    only when it is empty: then no field is read and the state (registry,
    cursor, terminal) is unchanged. Non-empty short data raises no error:
    its sequence counter reads as 0 and the advertisement is processed as
    any other, so that counter and timestamp are stored and the rows are
    written whenever the stored counter is not 0. *)
Theorem short_payload_handling device advertising_data date_now st adv_atc :
  service_data advertising_data !! ATC_SERVICE = Some adv_atc ->
  (length adv_atc < 14)%nat ->
  (length adv_atc = 0%nat ->
   callback device advertising_data date_now st = st) /\
  ((0 < length adv_atc)%nat ->
   count adv_atc = 0 /\
   (atc_counters st !! address device <> Some 0 ->
    atc_counters (callback device advertising_data date_now st)
      !! address device = Some 0 /\
    atc_date (callback device advertising_data date_now st)
      !! address device = Some date_now /\
    exists nm i,
      shown device advertising_data date_now st =
        clear_on_first (address device) st
        ++ render (posx i) (posy i)
             (rows nm adv_atc (rssi advertising_data) date_now
              ++ duration_row
                   (date_diff date_now (atc_date st !! address device))))).
Proof.
  intros H Hshort. split.
  - intros Hlen. destruct adv_atc; [| discriminate].
    now apply callback_empty.
  - intros Hlen. pose proof (count_short adv_atc Hshort) as Hcount.
    split; [assumption |]. intros Hc. rewrite <- Hcount in Hc.
    destruct (callback_change _ _ date_now st _ H Hlen Hc)
      as (nm & e & Hcs & Hds & _ & _ & _).
    cbv zeta in Hcs, Hds. rewrite Hcs, Hds, !lookup_insert_eq, Hcount.
    repeat split. apply (shown_change _ _ _ _ _ H Hlen Hc).
Qed.

Lemma short_payload_handling_witness :
  (length short_payload = 0%nat ->
   callback ex_dev short_adv 1000000 initial = initial) /\
  ((0 < length short_payload)%nat ->
   count short_payload = 0 /\
   (atc_counters initial !! address ex_dev <> Some 0 ->
    atc_counters (callback ex_dev short_adv 1000000 initial)
      !! address ex_dev = Some 0 /\
    atc_date (callback ex_dev short_adv 1000000 initial)
      !! address ex_dev = Some 1000000 /\
    exists nm i,
      shown ex_dev short_adv 1000000 initial =
        clear_on_first (address ex_dev) initial
        ++ render (posx i) (posy i)
             (rows nm short_payload (rssi short_adv) 1000000
              ++ duration_row
                   (date_diff 1000000 (atc_date initial !! address ex_dev))))).
Proof.
  apply (short_payload_handling ex_dev short_adv 1000000 initial short_payload).
  - vm_compute. reflexivity.
  - simpl. lia.
Defined.

(** ** Sequence change *)

(** C3. In every state the scanner can reach, for an advertisement that
    carries ATC service data, the callback leaves the whole state (the
    registry, the cursor and the terminal) untouched exactly when the
    sequence counter of the payload equals the one stored for the address,
    and then writes nothing; when it differs (no counter stored, or any
    other value, 255 before 0 included) the counter and the timestamp of
    the address are stored and the rows of the update are written. *)
Theorem update_exactly_on_sequence_change
    device advertising_data date_now st adv_atc :
  reachable st ->
  service_data advertising_data !! ATC_SERVICE = Some adv_atc ->
  (0 < length adv_atc)%nat ->
  (callback device advertising_data date_now st = st <->
   atc_counters st !! address device = Some (count adv_atc)) /\
  (atc_counters st !! address device = Some (count adv_atc) ->
   shown device advertising_data date_now st = []) /\
  (atc_counters st !! address device <> Some (count adv_atc) ->
   atc_counters (callback device advertising_data date_now st)
     !! address device = Some (count adv_atc) /\
   atc_date (callback device advertising_data date_now st)
     !! address device = Some date_now /\
   exists nm i,
     shown device advertising_data date_now st =
       clear_on_first (address device) st
       ++ render (posx i) (posy i)
            (rows nm adv_atc (rssi advertising_data) date_now
             ++ duration_row
                  (date_diff date_now (atc_date st !! address device)))).
Proof.
  intros Hreach H Hlen. apply reachable_ok in Hreach.
  assert (Hchange :
    atc_counters st !! address device <> Some (count adv_atc) ->
    atc_counters (callback device advertising_data date_now st)
      !! address device = Some (count adv_atc) /\
    atc_date (callback device advertising_data date_now st)
      !! address device = Some date_now).
  { intros Hc.
    destruct (callback_change _ _ date_now st _ H Hlen Hc)
      as (nm & e & Hcs & Hds & _).
    cbv zeta in Hcs, Hds. rewrite Hcs, Hds, !lookup_insert_eq. auto. }
  split; [split |]; [| | split].
  - intros Hsame.
    destruct (decide (atc_counters st !! address device
                      = Some (count adv_atc))) as [Hc | Hc]; [assumption |].
    destruct (Hchange Hc) as [Hcs _]. rewrite Hsame in Hcs. contradiction.
  - apply (callback_no_change _ _ _ _ _ Hreach H Hlen).
  - intros Hc. unfold shown.
    rewrite (callback_no_change _ _ _ _ _ Hreach H Hlen Hc).
    apply drop_all.
  - intros Hc. destruct (Hchange Hc) as [Hcs Hds].
    repeat split; try assumption.
    apply (shown_change _ _ _ _ _ H Hlen Hc).
Qed.

Lemma update_exactly_on_sequence_change_witness :
  (callback ex_dev ex_adv2 3400000 ex_state = ex_state <->
   atc_counters ex_state !! address ex_dev = Some (count ex_payload2)) /\
  (atc_counters ex_state !! address ex_dev = Some (count ex_payload2) ->
   shown ex_dev ex_adv2 3400000 ex_state = []) /\
  (atc_counters ex_state !! address ex_dev <> Some (count ex_payload2) ->
   atc_counters (callback ex_dev ex_adv2 3400000 ex_state)
     !! address ex_dev = Some (count ex_payload2) /\
   atc_date (callback ex_dev ex_adv2 3400000 ex_state)
     !! address ex_dev = Some 3400000 /\
   exists nm i,
     shown ex_dev ex_adv2 3400000 ex_state =
       clear_on_first (address ex_dev) ex_state
       ++ render (posx i) (posy i)
            (rows nm ex_payload2 (rssi ex_adv2) 3400000
             ++ duration_row
                  (date_diff 3400000 (atc_date ex_state !! address ex_dev)))).
Proof.
  apply (update_exactly_on_sequence_change
           ex_dev ex_adv2 3400000 ex_state ex_payload2).
  - apply reach_callback, reach_initial.
  - vm_compute. reflexivity.
  - simpl. lia.
Defined.

(** The first observation of an address is an update. *)
Lemma first_observation_updates device advertising_data date_now st adv_atc :
  service_data advertising_data !! ATC_SERVICE = Some adv_atc ->
  (0 < length adv_atc)%nat ->
  atc_counters st !! address device = None ->
  atc_counters (callback device advertising_data date_now st)
    !! address device = Some (count adv_atc) /\
  atc_date (callback device advertising_data date_now st)
    !! address device = Some date_now.
Proof.
  intros H Hlen Hnone.
  destruct (callback_change device advertising_data date_now st adv_atc
              H Hlen) as (nm & e & Hcs & Hds & _);
    [rewrite Hnone; discriminate |].
  cbv zeta in Hcs, Hds. rewrite Hcs, Hds, !lookup_insert_eq. auto.
Qed.

(** The counter wrapping from 255 to 0 is an update like any other. *)
Lemma wrap_around_updates device advertising_data date_now st adv_atc :
  service_data advertising_data !! ATC_SERVICE = Some adv_atc ->
  (0 < length adv_atc)%nat ->
  atc_counters st !! address device = Some 255 ->
  count adv_atc = 0 ->
  atc_counters (callback device advertising_data date_now st)
    !! address device = Some 0 /\
  atc_date (callback device advertising_data date_now st)
    !! address device = Some date_now.
Proof.
  intros H Hlen H255 H0.
  destruct (callback_change device advertising_data date_now st adv_atc
              H Hlen) as (nm & e & Hcs & Hds & _);
    [rewrite H255, H0; discriminate |].
  cbv zeta in Hcs, Hds. rewrite Hcs, Hds, !lookup_insert_eq, H0. auto.
Qed.

(** ** The stored timestamp is the time of the last accepted update *)

Lemma atc_date_callback device advertising_data date_now st a :
  registry_ok st ->
  atc_date (callback device advertising_data date_now st) !! a =
  if accepts device advertising_data st && bool_decide (address device = a)
  then Some date_now else atc_date st !! a.
Proof.
  intros Hok. unfold accepts.
  destruct (service_data advertising_data !! ATC_SERVICE) as [adv_atc|] eqn:H;
    [| now rewrite callback_absent].
  destruct adv_atc as [|b bs] eqn:Hadv; [now rewrite callback_empty |].
  rewrite <- Hadv in *.
  assert (Hlen : (0 < length adv_atc)%nat) by (subst; simpl; lia).
  replace (Nat.eqb (length adv_atc) 0) with false
    by (symmetry; apply Nat.eqb_neq; lia).
  cbn [negb andb]. clear Hadv b bs.
  case_bool_decide as Hc; cbn [negb andb].
  - now rewrite (callback_no_change _ _ _ _ _ Hok H Hlen Hc).
  - destruct (callback_change _ _ date_now st _ H Hlen Hc)
      as (nm & e & _ & Hds & _).
    cbv zeta in Hds. rewrite Hds.
    case_bool_decide as Ha.
    + subst a. apply lookup_insert_eq.
    + now apply lookup_insert_ne.
Qed.

Lemma atc_date_last_accepted (a : string) (evs : list advertisement)
    (st : state) :
  registry_ok st ->
  atc_date (scan st evs) !! a = last_accepted a st evs (atc_date st !! a).
Proof.
  revert st. induction evs as [|[[device advertising_data] date_now] evs IH];
    intros st Hok; [reflexivity |].
  cbn [scan foldl last_accepted]. fold (scan (callback device advertising_data date_now st) evs).
  rewrite IH by now apply registry_ok_callback.
  now rewrite atc_date_callback.
Qed.

(** ** Elapsed duration *)

(** C9. On an accepted update the timestamp of the address becomes the
    current time. When no timestamp was stored (the first recorded reading
    of the device) exactly the nine rows are written, no Duration row.
    When one was stored, the number of seconds computed is
    [round(total_seconds())] of the elapsed time, and the Duration row,
    written unless that number is zero, carries it; for an elapsed time of
    less than 2^34 seconds (17179869184 s, about 544 years) either way it
    is the elapsed time rounded to the nearest whole second, at most half
    a second away from it. *)
Theorem elapsed_duration_rounded device advertising_data date_now st adv_atc :
  service_data advertising_data !! ATC_SERVICE = Some adv_atc ->
  (0 < length adv_atc)%nat ->
  atc_counters st !! address device <> Some (count adv_atc) ->
  atc_date (callback device advertising_data date_now st) !! address device
    = Some date_now /\
  (atc_date st !! address device = None ->
   exists nm i,
     shown device advertising_data date_now st =
       clear_on_first (address device) st
       ++ render (posx i) (posy i)
            (rows nm adv_atc (rssi advertising_data) date_now)) /\
  (forall date_prev : datetime, atc_date st !! address device = Some date_prev ->
   exists secs,
     secs = round_total_seconds (date_now - date_prev) /\
     (Z.abs (date_now - date_prev) < 17179869184000000 ->
      secs = round_div (date_now - date_prev) 1000000 /\
      2 * Z.abs (secs * 1000000 - (date_now - date_prev)) <= 1000000) /\
     exists nm i,
       shown device advertising_data date_now st =
         clear_on_first (address device) st
         ++ render (posx i) (posy i)
              (rows nm adv_atc (rssi advertising_data) date_now
               ++ (if secs =? 0 then []
                   else [Row 12 "Duration:"
                           (VDelta (Delta (timedelta_of_seconds secs)))]))).
Proof.
  intros H Hlen Hc.
  destruct (shown_change _ _ date_now st _ H Hlen Hc) as (nm & i & Hshown).
  destruct (callback_change _ _ date_now st _ H Hlen Hc)
    as (_ & _ & _ & Hds & _).
  cbv zeta in Hds. split; [rewrite Hds; apply lookup_insert_eq |].
  split.
  - intros Hnone. exists nm, i. rewrite Hshown, Hnone. cbn [date_diff].
    unfold duration_row. cbn [date_diff_truthy]. now rewrite app_nil_r.
  - intros date_prev Hprev. eexists. split; [reflexivity |]. split.
    + intros Hsmall.
      rewrite round_total_seconds_small by exact Hsmall.
      split; [reflexivity | apply round_div_nearest; lia].
    + exists nm, i. rewrite Hshown, Hprev. cbn [date_diff].
      unfold duration_row, date_diff_truthy, timedelta_of_seconds.
      destruct (Z.eqb_spec (round_total_seconds (date_now - date_prev)) 0)
        as [-> | Hne]; [reflexivity |].
      destruct (Z.eqb_spec
                  (round_total_seconds (date_now - date_prev) * 1000000) 0);
        [lia | reflexivity].
Qed.

Lemma elapsed_duration_rounded_witness :
  atc_date (callback ex_dev ex_adv2 3400000 ex_state) !! address ex_dev
    = Some 3400000 /\
  (atc_date ex_state !! address ex_dev = None ->
   exists nm i,
     shown ex_dev ex_adv2 3400000 ex_state =
       clear_on_first (address ex_dev) ex_state
       ++ render (posx i) (posy i)
            (rows nm ex_payload2 (rssi ex_adv2) 3400000)) /\
  (forall date_prev : datetime, atc_date ex_state !! address ex_dev = Some date_prev ->
   exists secs,
     secs = round_total_seconds (3400000 - date_prev) /\
     (Z.abs (3400000 - date_prev) < 17179869184000000 ->
      secs = round_div (3400000 - date_prev) 1000000 /\
      2 * Z.abs (secs * 1000000 - (3400000 - date_prev)) <= 1000000) /\
     exists nm i,
       shown ex_dev ex_adv2 3400000 ex_state =
         clear_on_first (address ex_dev) ex_state
         ++ render (posx i) (posy i)
              (rows nm ex_payload2 (rssi ex_adv2) 3400000
               ++ (if secs =? 0 then []
                   else [Row 12 "Duration:"
                           (VDelta (Delta (timedelta_of_seconds secs)))]))).
Proof.
  apply (elapsed_duration_rounded ex_dev ex_adv2 3400000 ex_state ex_payload2).
  - vm_compute. reflexivity.
  - simpl. lia.
  - vm_compute. discriminate.
Defined.

(** The second advertisement arrives 2.4 s after the first: the Duration
    row shows 2 s. *)
Example ex_duration_row :
  shown ex_dev ex_adv2 3400000 ex_state =
    render 0 1
      (rows (Some "ATC-995B") ex_payload2 (-61) 3400000
       ++ [Row 12 "Duration:" (VDelta (Delta 2000000))]).
Proof. vm_compute. reflexivity. Qed.

(** C10. On an accepted update the Duration row is written if and only if
    a timestamp was stored for the address and the elapsed time rounded to
    whole seconds is not zero; an update less than half a second after
    the previous one writes the nine rows of a first observation and no
    Duration row. *)
Theorem duration_row_iff_nonzero device advertising_data date_now st adv_atc :
  service_data advertising_data !! ATC_SERVICE = Some adv_atc ->
  (0 < length adv_atc)%nat ->
  atc_counters st !! address device <> Some (count adv_atc) ->
  (existsb is_duration (shown device advertising_data date_now st) = true <->
   exists date_prev : datetime,
     atc_date st !! address device = Some date_prev /\
     round_div (date_now - date_prev) 1000000 <> 0) /\
  (forall date_prev : datetime,
     atc_date st !! address device = Some date_prev ->
     0 <= date_now - date_prev < 500000 ->
     existsb is_duration (shown device advertising_data date_now st) = false /\
     exists nm i,
       shown device advertising_data date_now st =
         clear_on_first (address device) st
         ++ render (posx i) (posy i)
              (rows nm adv_atc (rssi advertising_data) date_now)).
Proof.
  intros H Hlen Hc.
  destruct (shown_change _ _ date_now st _ H Hlen Hc) as (nm & i & Hshown).
  split.
  - rewrite Hshown, duration_shown. apply date_diff_truthy_spec.
  - intros date_prev Hprev Hhalf.
    assert (Hzero : round_div (date_now - date_prev) 1000000 = 0)
      by (apply round_div_zero; lia).
    assert (Hd : date_diff_truthy
                   (date_diff date_now (atc_date st !! address device))
                 = false).
    { rewrite Hprev. cbn [date_diff].
      apply round_total_seconds_zero in Hzero. rewrite Hzero. reflexivity. }
    split.
    + rewrite Hshown, duration_shown. exact Hd.
    + exists nm, i. rewrite Hshown. unfold duration_row. rewrite Hd.
      now rewrite app_nil_r.
Qed.

Lemma duration_row_iff_nonzero_witness :
  (existsb is_duration (shown ex_dev ex_adv2 1400000 ex_state) = true <->
   exists date_prev : datetime,
     atc_date ex_state !! address ex_dev = Some date_prev /\
     round_div (1400000 - date_prev) 1000000 <> 0) /\
  (forall date_prev : datetime,
     atc_date ex_state !! address ex_dev = Some date_prev ->
     0 <= 1400000 - date_prev < 500000 ->
     existsb is_duration (shown ex_dev ex_adv2 1400000 ex_state) = false /\
     exists nm i,
       shown ex_dev ex_adv2 1400000 ex_state =
         clear_on_first (address ex_dev) ex_state
         ++ render (posx i) (posy i)
              (rows nm ex_payload2 (rssi ex_adv2) 1400000)).
Proof.
  apply (duration_row_iff_nonzero ex_dev ex_adv2 1400000 ex_state ex_payload2).
  - vm_compute. reflexivity.
  - simpl. lia.
  - vm_compute. discriminate.
Defined.

(** 0.4 s after the first advertisement: nine rows, no Duration row. *)
Example ex_no_duration_row :
  shown ex_dev ex_adv2 1400000 ex_state =
    render 0 1 (rows (Some "ATC-995B") ex_payload2 (-61) 1400000).
Proof. vm_compute. reflexivity. Qed.

(** ** Grid placement of the callback *)

(** Lines 99-100 are the row-major grid with origin (0, 1), cells of
    [text_width] by [text_hight] and [cols] columns. *)
Lemma callback_grid_placement (slot : Z) :
  posx slot = 0 + text_width * (slot mod cols) /\
  posy slot = 1 + text_hight * (slot / cols).
Proof. unfold posx, posy. lia. Qed.

Lemma callback_grid_next_row :
  posx cols = posx 0 /\ posy cols = posy 0 + text_hight.
Proof. split; reflexivity. Qed.

(** The rows of an update start at the grid position of the slot stored
    for the device. *)
Lemma shown_at_slot device advertising_data date_now st adv_atc :
  service_data advertising_data !! ATC_SERVICE = Some adv_atc ->
  (0 < length adv_atc)%nat ->
  atc_counters st !! address device <> Some (count adv_atc) ->
  exists nm e,
    atc_devices (callback device advertising_data date_now st)
      !! address device = Some e /\
    shown device advertising_data date_now st =
      clear_on_first (address device) st
      ++ render (posx (id e)) (posy (id e))
           (rows nm adv_atc (rssi advertising_data) date_now
            ++ duration_row
                 (date_diff date_now (atc_date st !! address device))).
Proof.
  intros H Hlen Hc.
  destruct (callback_change _ _ date_now st _ H Hlen Hc)
    as (nm & e & _ & _ & Hvs & _ & Hout).
  cbv zeta in Hvs, Hout. exists nm, e. split.
  - rewrite Hvs. apply lookup_insert_eq.
  - unfold shown. rewrite Hout. apply drop_app_length.
Qed.

End MainCallback.

(** * Properties of outputs.py *)
Section OutputsWindows.
Import Outputs.

(** ** consoleWindows.add_window *)

(** The origin [add_window] computes when it succeeds. *)
Lemma add_window_origin (self : consoleWindows) (i width height : Z)
    (r : Z * consoleWindows) :
  add_window self (Some i) width height = inr r ->
  exists w,
    windows (snd r) !! i = Some w /\
    x w = wx self + width * (i / (cols self / (wx self + width + gap_x self)))
          + gap_x self /\
    y w = wy self
          + height * (i mod (cols self / (wx self + width + gap_x self)))
          + gap_y self.
Proof.
  unfold add_window, bind, floordiv, modulo.
  destruct (wx self + width + gap_x self =? 0); [discriminate |].
  destruct (wy self + height + gap_y self =? 0); [discriminate |].
  destruct (_ <? i); [discriminate |].
  destruct (cols self / (wx self + width + gap_x self) =? 0);
    [discriminate |].
  intros [= <-]. cbn. eexists. split; [apply lookup_insert_eq |].
  split; reflexivity.
Qed.

(** C4 at [add_window]: with two columns, slot 1 is put below slot 0 and
    slot 2 (the slot whose id is the column count) beside it, in the row
    of slot 0; the row index is used for [x] and the column index for
    [y]. *)
Theorem add_window_transposes_grid :
  exists ws w0 w1 w2,
    demo_windows = inr ws /\
    ws !! 0 = Some w0 /\ ws !! 1 = Some w1 /\ ws !! 2 = Some w2 /\
    (x w0, y w0) = (9, 0) /\
    (x w1, y w1) = (9, 5) /\
    (x w2, y w2) = (30, 0).
Proof.
  eexists _, _, _, _. vm_compute. repeat split; reflexivity.
Qed.

(** ** consoleWindow.print_line *)

(** What [print_line] hands to the sink, and the cursor it leaves: the
    text prefixed with the local cursor, the local cursor as position, and
    the cursor at column 0 of the next line, clipped. *)
Lemma print_line_spec {S} `{PrintAbstract S} (self : consoleWindow)
    (text : string) (p : option position) (sink : S) :
  let c := cursor_used self p in
  print_line self text p sink =
  (set_pos self
     (Position (Z.max 0 (Z.min 0 (width self - 1)))
               (Z.max 0 (Z.min (pos_y c + line_height self)
                               (height self - 1)))),
   print_value ("[" ++ str_of_int (pos_x c) ++ ", "
                    ++ str_of_int (pos_y c) ++ "] " ++ text)%string
               (Some c) sink,
   match p with
   | Some _ => Some (Position 0 (pos_y c + line_height self))
   | None => None
   end).
Proof. destruct p; reflexivity. Qed.

Example demo_window_added :
  exists ws, add_window demo_manager None 21 5 = inr (0, ws) /\
             windows ws !! 0 = Some demo_window.
Proof. eexists. vm_compute. split; reflexivity. Qed.

(** C5 at the first line of the demonstration: the window has its origin
    at column 9, the position handed to the sink is the local cursor
    (0, 0), and the escape sequence printed addresses row 0, column 0;
    [get_abs_pos], which adds the origin, is not used. *)
Theorem print_line_hands_over_local_cursor :
  get_abs_pos demo_window = Position 9 0 /\
  print_line demo_window "Window 0 line 0" None ([] : stdout) =
    (set_pos demo_window (Position 0 1),
     print_value "[0, 0] Window 0 line 0" (Some (Position 0 0)) [],
     None) /\
  print_value "[0, 0] Window 0 line 0" (Some (Position 0 0)) ([] : stdout) =
    [(ESC ++ "[0;0H[0, 0] Window 0 line 0")%string] /\
  print_value "[0, 0] Window 0 line 0" (Some (Position 0 0)) ([] : stdout) <>
    print_value "[0, 0] Window 0 line 0" (Some (get_abs_pos demo_window)) [].
Proof.
  repeat split; try reflexivity. vm_compute. discriminate.
Qed.

(** ** The cursor stays inside the window *)

Lemma print_line_in_bounds {S} `{PrintAbstract S} (self : consoleWindow)
    (text : string) (p : option position) (sink : S) :
  1 <= width self -> 1 <= height self ->
  let w := fst (fst (print_line self text p sink)) in
  width w = width self /\ height w = height self /\
  line_height w = line_height self /\ in_bounds w.
Proof.
  intros Hw Hh. rewrite print_line_spec. cbn.
  unfold in_bounds. cbn. repeat split; lia.
Qed.

(** C7. For a window of width and height at least 1 and any sequence of
    [print_line] calls, with or without a position, the cursor after each
    call satisfies 0 <= x < width and 0 <= y < height; and a call made
    with the cursor on the last row leaves it on the last row. *)
Theorem cursor_stays_in_bounds {S} `{PrintAbstract S}
    (self : consoleWindow) (calls : list (string * option position))
    (sink : S) :
  1 <= width self -> 1 <= height self ->
  Forall (fun w => width w = width self /\ height w = height self /\
                   in_bounds w)
         (windows_after self calls sink) /\
  length (windows_after self calls sink) = length calls /\
  (forall text, pos_y (pos self) = height self - 1 ->
                0 <= line_height self ->
    pos_y (pos (fst (fst (print_line self text None sink))))
      = height self - 1).
Proof.
  intros Hw Hh. split; [| split].
  - revert sink. generalize dependent self.
    induction calls as [|[text p] calls IH]; intros self Hw Hh sink;
      [constructor |].
    cbn [windows_after].
    pose proof (print_line_in_bounds self text p sink Hw Hh) as Hb.
    destruct (print_line self text p sink) as [[self' sink'] arg].
    cbn in Hb. destruct Hb as (Hw' & Hh' & _ & Hb).
    constructor; [auto |].
    rewrite <- Hw', <- Hh'. apply IH; lia.
  - clear Hw Hh. revert self sink. induction calls as [|[text p] calls IH];
      intros self sink; [reflexivity |].
    cbn [windows_after].
    destruct (print_line self text p sink) as [[self' sink'] arg].
    cbn. now rewrite IH.
  - intros text Hlast Hlh. rewrite print_line_spec. cbn. lia.
Qed.

Lemma cursor_stays_in_bounds_witness :
  Forall (fun w => width w = width demo_window /\
                   height w = height demo_window /\ in_bounds w)
         (windows_after demo_window
            [("a", None); ("b", Some (Position 40 (-3))); ("c", None)]
            ([] : stdout)) /\
  length (windows_after demo_window
            [("a", None); ("b", Some (Position 40 (-3))); ("c", None)]
            ([] : stdout)) = 3%nat /\
  (forall text, pos_y (pos demo_window) = height demo_window - 1 ->
                0 <= line_height demo_window ->
    pos_y (pos (fst (fst (print_line demo_window text None ([] : stdout)))))
      = height demo_window - 1).
Proof.
  apply (cursor_stays_in_bounds demo_window
           [("a", None); ("b", Some (Position 40 (-3))); ("c", None)]
           ([] : stdout)).
  - simpl. lia.
  - simpl. lia.
Defined.

(** Ten lines into a window of height 5, as the demonstration prints
    them: the cursor rows are 1, 2, 3, 4 and then 4 for good. *)
Example demo_cursor_rows :
  map (fun w => pos_y (pos w))
      (windows_after demo_window (replicate 10 ("line", None)) ([] : stdout))
  = [1; 2; 3; 4; 4; 4; 4; 4; 4; 4].
Proof. vm_compute. reflexivity. Qed.

End OutputsWindows.

Section OutputsAsync.
Import Outputs.

Lemma history_app (es es' : list event) :
  history (es ++ es') = history es ++ history es'.
Proof. unfold history. now rewrite map_app, concat_app. Qed.

Lemma run_snoc (s : async_sink) (es : list event) (e : event) :
  run s (es ++ [e]) = exec (run s es) e.
Proof. unfold run. now rewrite foldl_snoc. Qed.

Lemma clear_lines_puts (k : nat) (s : async_sink) :
  Nat.iter k (async_print CLEAR_LINE) s =
  AsyncSink (print_queue s ++ replicate k (Some CLEAR_LINE))
            (worker_done s) (printed s).
Proof.
  induction k as [|k IH].
  - destruct s. cbn. now rewrite app_nil_r.
  - rewrite Nat.iter_succ, IH. unfold async_print, put. cbn.
    rewrite <- app_assoc. do 2 f_equal.
    change (replicate k (Some CLEAR_LINE) ++ [Some CLEAR_LINE]
            = Some CLEAR_LINE :: replicate k (Some CLEAR_LINE)).
    symmetry. apply replicate_cons_app.
Qed.

(** A producer appends what it enqueues and touches nothing else. *)
Lemma exec_producer (s : async_sink) (e : event) :
  e <> Worker ->
  exec s e = AsyncSink (print_queue s ++ enqueued e)
                       (worker_done s) (printed s).
Proof.
  destruct e; intros He; try contradiction; try reflexivity.
  apply clear_lines_puts.
Qed.

(** The queue discipline: what was enqueued is, in order, what the worker
    has printed, the exit signal if it has taken it, and what still
    waits. *)
Lemma queue_invariant (es : list event) :
  let s := run new_async es in
  history es = map Some (printed s) ++ exit_seen s ++ print_queue s.
Proof.
  induction es as [|e es IH] using rev_ind; [reflexivity |].
  cbv zeta in *. rewrite run_snoc, history_app.
  set (s := run new_async es) in *. rewrite IH.
  unfold history. cbn [map concat]. rewrite app_nil_r.
  assert (Hcase : e = Worker \/ e <> Worker)
    by (destruct e; (left; reflexivity) || (right; discriminate)).
  destruct Hcase as [-> | He].
  - cbn [enqueued exec]. rewrite app_nil_r.
    unfold print_worker, exit_seen.
    destruct (worker_done s) eqn:Hd; [now rewrite Hd |].
    destruct (print_queue s) as [|[m|] q] eqn:Hq; cbn.
    + now rewrite Hd, Hq.
    + rewrite map_app, <- app_assoc. reflexivity.
    + reflexivity.
  - rewrite (exec_producer s e He). unfold exit_seen. cbn.
    now rewrite <- !app_assoc.
Qed.

Lemma before_exit_texts (l : list string) (q : list (option string)) :
  before_exit (map Some l ++ None :: q) = l.
Proof. induction l as [|m l IH]; cbn; [reflexivity | now rewrite IH]. Qed.

Lemma map_Some_split (a p : list string) (q : list (option string)) :
  map Some a = map Some p ++ q ->
  exists l, q = map Some l /\ a = p ++ l.
Proof.
  revert a. induction p as [|m p IH]; intros a Heq.
  - exists a. auto.
  - destruct a as [|m' a]; [discriminate |].
    cbn in Heq. injection Heq as -> Heq.
    destruct (IH a Heq) as (l & -> & ->). exists l. auto.
Qed.

(** Without a [close] only strings are enqueued. *)
Lemma history_no_close (es : list event) :
  ClosePut ∉ es -> history es = map Some (texts (history es)).
Proof.
  induction es as [|e es IH]; intros Hno; [reflexivity |].
  apply not_elem_of_cons in Hno as [He Hno].
  change (history (e :: es)) with (enqueued e ++ history es).
  unfold texts in *. rewrite omap_app, map_app, <- IH by assumption.
  f_equal. destruct e; try reflexivity; try contradiction.
  cbn [enqueued]. induction (Z.to_nat lines) as [|k IHk];
    [reflexivity | cbn; now rewrite <- IHk].
Qed.

(** The worker drains the queue up to the exit signal and finishes. *)
Lemma await_worker_drains (l : list string) (rest : list (option string))
    (out : stdout) (fuel : nat) :
  (length l < fuel)%nat ->
  await_worker fuel (AsyncSink (map Some l ++ None :: rest) false out) =
  Some (AsyncSink rest true (out ++ l)).
Proof.
  revert out fuel. induction l as [|m l IH]; intros out fuel Hfuel;
    (destruct fuel as [|fuel]; [cbn in Hfuel; lia |]).
  - cbn. destruct fuel; now rewrite app_nil_r.
  - cbn [await_worker worker_done map app print_worker print_queue printed].
    rewrite IH by (cbn in Hfuel; lia). now rewrite <- app_assoc.
Qed.

(** C6. For every interleaving [es] of producer calls, [close] calls and
    worker turns on a fresh asynchronous sink: (1) what the worker has
    printed is, in order, an initial part of what was enqueued; (2) once a
    [close] has put its exit signal and the worker task has finished (the
    condition [close] waits for), the output is exactly the sequence of
    strings enqueued before that [close], whatever ran in between;
    (3) if nothing has closed the sink yet, [close] does return (the
    worker needs one turn per waiting item and one for the signal), with
    an empty queue and the output equal to the whole enqueue sequence. *)
Theorem async_sink_fifo_and_flush (es : list event) :
  (exists rest,
     history es = map Some (printed (run new_async es)) ++ rest) /\
  (forall pre post,
     es = pre ++ ClosePut :: post -> ClosePut ∉ pre ->
     worker_done (run new_async es) = true ->
     printed (run new_async es) = texts (history pre)) /\
  (ClosePut ∉ es ->
   exists s',
     close (S (length (print_queue (run new_async es)))) (run new_async es)
       = Some s' /\
     worker_done s' = true /\
     print_queue s' = [] /\
     printed s' = texts (history es)).
Proof.
  pose proof (queue_invariant es) as Hinv. cbv zeta in Hinv.
  destruct (run new_async es) as [q done out] eqn:Hrun.
  unfold exit_seen in Hinv. cbn [printed worker_done print_queue] in *.
  split; [eauto | split].
  - intros pre post -> Hno Hdone. subst done.
    rewrite history_app, (history_no_close pre Hno) in Hinv.
    change (history (ClosePut :: post)) with (None :: history post) in Hinv.
    apply (f_equal before_exit) in Hinv.
    cbn [app] in Hinv. rewrite !before_exit_texts in Hinv. now symmetry.
  - intros Hno. rewrite (history_no_close es Hno) in Hinv.
    apply map_Some_split in Hinv as (l & Hl & Htexts).
    destruct done.
    + destruct l; discriminate.
    + cbn [app] in Hl. subst q. unfold close, put.
      cbn [print_queue worker_done printed].
      rewrite await_worker_drains by (rewrite length_map; lia).
      eexists. split; [reflexivity |]. cbn. auto.
Qed.

(** Three producers' writes with a worker turn in between, then [close]:
    the output is the three strings in call order. *)
Example ex_close_flushes :
  close 4 (run new_async
             [PrintValue "a" None; Worker; PrintValue "b" None;
              PrintValue "c" None]) =
  Some (AsyncSink [] true ["a"; "b"; "c"]).
Proof. reflexivity. Qed.

End OutputsAsync.

(** * Further properties of main.py *)
Section MainRegistry.
Import Main.

(** The callback on service data that is present and not empty, field by
    field. *)
Lemma callback_state device advertising_data date_now st adv_atc :
  service_data advertising_data !! ATC_SERVICE = Some adv_atc ->
  (0 < length adv_atc)%nat ->
  let addr := address device in
  let nm := local_name advertising_data in
  let e := entry_after addr nm st in
  let ts := rows (name_shown addr nm st) adv_atc (rssi advertising_data) date_now
            ++ duration_row (date_diff date_now (atc_date st !! addr)) in
  callback device advertising_data date_now st =
  if decide (atc_counters st !! addr = Some (count adv_atc))
  then State (atc_counters st) (atc_date st)
             (<[addr := e]> (atc_devices st)) (print_pos st)
             (terminal st ++ clear_on_first addr st)
  else State (<[addr := count adv_atc]> (atc_counters st))
             (<[addr := date_now]> (atc_date st))
             (<[addr := e]> (atc_devices st))
             (Position (posx (id e)) (posy (id e) + Z.of_nat (length ts)))
             (terminal st ++ clear_on_first addr st
              ++ render (posx (id e)) (posy (id e)) ts).
Proof.
  intros H Hlen addr nm e ts.
  rewrite (callback_nonempty _ _ _ _ _ H Hlen). cbv zeta.
  subst e ts. unfold name_shown, entry_after, register, resolve_name,
    clear_on_first.
  fold addr. fold nm.
  destruct st as [cs ds vs p out].
  cbn [atc_devices atc_counters atc_date print_pos terminal].
  destruct (vs !! addr) as [e0|] eqn:Hlk.
  - destruct (name_truthy nm) eqn:Hnm; cbn [orb];
      [| destruct (name_truthy (name e0)) eqn:He0];
      cbn [atc_counters]; rewrite ?(insert_id vs addr e0 Hlk), app_nil_r;
      (destruct (decide _); [reflexivity |]);
      rewrite update_eq;
      cbn [atc_counters atc_date atc_devices print_pos terminal name id];
      rewrite ?app_nil_r; reflexivity.
  - destruct (decide (size vs = 0%nat)) as [Hz | Hz];
      destruct (name_truthy nm) eqn:Hnm;
      cbn [print_clear atc_counters atc_date atc_devices print_pos terminal
           name id];
      rewrite ?Hnm; cbn [atc_counters];
      rewrite ?insert_insert_eq, ?app_nil_r;
      (destruct (decide _); [reflexivity |]);
      rewrite update_eq;
      cbn [atc_counters atc_date atc_devices print_pos terminal name id];
      rewrite <- ?app_assoc, ?app_nil_r; reflexivity.
Qed.

Lemma atc_payload_some advertising_data adv_atc :
  atc_payload advertising_data = Some adv_atc ->
  service_data advertising_data !! ATC_SERVICE = Some adv_atc /\
  (0 < length adv_atc)%nat.
Proof.
  unfold atc_payload.
  destruct (service_data advertising_data !! ATC_SERVICE) as [[|b bs]|];
    intros [= <-]. split; [reflexivity | simpl; lia].
Qed.

Lemma callback_skip device advertising_data date_now st :
  atc_payload advertising_data = None ->
  callback device advertising_data date_now st = st.
Proof.
  unfold atc_payload, callback.
  destruct (service_data advertising_data !! ATC_SERVICE) as [[|b bs]|];
    [reflexivity | discriminate | reflexivity].
Qed.

Lemma callback_counters_eq device advertising_data date_now st adv_atc :
  atc_payload advertising_data = Some adv_atc ->
  atc_counters (callback device advertising_data date_now st) =
  <[address device := count adv_atc]> (atc_counters st).
Proof.
  intros [H Hlen]%atc_payload_some.
  rewrite (callback_state _ _ _ _ _ H Hlen). cbv zeta.
  destruct (decide _) as [Hc | Hc]; cbn [atc_counters]; [| reflexivity].
  now rewrite insert_id.
Qed.

Lemma callback_devices_eq device advertising_data date_now st adv_atc :
  atc_payload advertising_data = Some adv_atc ->
  atc_devices (callback device advertising_data date_now st) =
  <[address device :=
      entry_after (address device) (local_name advertising_data) st]>
    (atc_devices st).
Proof.
  intros [H Hlen]%atc_payload_some.
  rewrite (callback_state _ _ _ _ _ H Hlen). cbv zeta.
  destruct (decide _); reflexivity.
Qed.

Lemma callback_date_eq device advertising_data date_now st adv_atc :
  atc_payload advertising_data = Some adv_atc ->
  atc_date (callback device advertising_data date_now st) =
  if decide (atc_counters st !! address device = Some (count adv_atc))
  then atc_date st
  else <[address device := date_now]> (atc_date st).
Proof.
  intros [H Hlen]%atc_payload_some.
  rewrite (callback_state _ _ _ _ _ H Hlen). cbv zeta.
  destruct (decide _); reflexivity.
Qed.

Lemma entry_after_known addr nm st e0 :
  atc_devices st !! addr = Some e0 ->
  id (entry_after addr nm st) = id e0 /\
  (name_truthy (name e0) = true -> entry_after addr nm st = e0).
Proof.
  intros Hlk. unfold entry_after. rewrite Hlk.
  destruct (name_truthy nm), (name_truthy (name e0)); cbn;
    split; try reflexivity; discriminate.
Qed.

Lemma entry_after_new addr nm st :
  atc_devices st !! addr = None ->
  id (entry_after addr nm st) = Z.of_nat (size (atc_devices st)).
Proof. intros Hlk. unfold entry_after. now rewrite Hlk. Qed.

Lemma entry_after_truthy addr nm st :
  (forall e0, atc_devices st !! addr = Some e0 ->
              name_truthy (name e0) = true) ->
  name_truthy (name (entry_after addr nm st)) = true.
Proof.
  intros Hok. unfold entry_after.
  destruct (atc_devices st !! addr) as [e0|] eqn:Hlk.
  - rewrite (Hok e0 eq_refl), orb_true_r. now apply Hok.
  - cbn. destruct (name_truthy nm) eqn:Hnm; [assumption | reflexivity].
Qed.

(** An invariant of the callback holds after every scan. *)
Lemma scan_invariant (P : state -> Prop) :
  (forall device advertising_data date_now st,
     P st -> P (callback device advertising_data date_now st)) ->
  forall evs st, P st -> P (scan st evs).
Proof.
  intros Hstep evs.
  induction evs as [|[[device advertising_data] date_now] evs IH];
    intros st Hst; [exact Hst |].
  apply (IH (callback device advertising_data date_now st)).
  now apply Hstep.
Qed.

Lemma registry_ok_scan evs : registry_ok (scan initial evs).
Proof.
  apply scan_invariant; [| apply registry_ok_initial].
  intros. now apply registry_ok_callback.
Qed.

(** ** Registration is idempotent *)

Lemma entry_kept_callback device advertising_data date_now st a e :
  atc_devices st !! a = Some e ->
  exists e',
    atc_devices (callback device advertising_data date_now st) !! a = Some e' /\
    id e' = id e /\
    (name_truthy (name e) = true -> e' = e).
Proof.
  intros Hlk.
  destruct (atc_payload advertising_data) as [adv_atc|] eqn:Hp;
    [| rewrite (callback_skip _ _ _ _ Hp); eauto].
  rewrite (callback_devices_eq _ _ _ _ _ Hp).
  destruct (decide (address device = a)) as [<- | Hne].
  - rewrite lookup_insert_eq. eexists. split; [reflexivity |].
    now apply entry_after_known.
  - rewrite lookup_insert_ne by assumption. eauto.
Qed.

(** X1. Whatever is scanned afterwards, a registered address keeps its
    slot, and it keeps its stored name once that is a non-empty string. *)
Theorem registered_entry_is_kept (evs : list advertisement) (st : state)
    (a : string) (e : device_entry) :
  atc_devices st !! a = Some e ->
  exists e',
    atc_devices (scan st evs) !! a = Some e' /\
    id e' = id e /\
    (name_truthy (name e) = true -> e' = e).
Proof.
  revert st e.
  induction evs as [|[[device advertising_data] date_now] evs IH];
    intros st e Hlk; [eauto |].
  destruct (entry_kept_callback device advertising_data date_now st a e Hlk)
    as (e1 & Hlk1 & Hid1 & Hname1).
  destruct (IH _ _ Hlk1) as (e2 & Hlk2 & Hid2 & Hname2).
  exists e2. split; [exact Hlk2 |]. split; [congruence |].
  intros Ht. specialize (Hname1 Ht). subst e1. now apply Hname2.
Qed.

Lemma registered_entry_is_kept_witness :
  exists e',
    atc_devices (scan ex_state [(ex_dev, ex_adv2, 3400000)]) !! address ex_dev
      = Some e' /\
    id e' = id (DeviceEntry (Some "ATC-995B") 0) /\
    (name_truthy (name (DeviceEntry (Some "ATC-995B") 0)) = true ->
     e' = DeviceEntry (Some "ATC-995B") 0).
Proof.
  apply (registered_entry_is_kept [(ex_dev, ex_adv2, 3400000)] ex_state
           (address ex_dev) (DeviceEntry (Some "ATC-995B") 0)).
  vm_compute. reflexivity.
Defined.

(** ** Slots *)

Lemma slots_ok_initial : slots_ok initial.
Proof.
  split; cbn.
  - intros a e He. rewrite lookup_empty in He. discriminate.
  - intros a b ea eb He. rewrite lookup_empty in He. discriminate.
Qed.

Lemma slots_ok_callback device advertising_data date_now st :
  slots_ok st -> slots_ok (callback device advertising_data date_now st).
Proof.
  intros [Hrange Hinj].
  destruct (atc_payload advertising_data) as [adv_atc|] eqn:Hp;
    [| rewrite (callback_skip _ _ _ _ Hp); now split].
  unfold slots_ok. rewrite (callback_devices_eq _ _ _ _ _ Hp).
  set (addr := address device). set (nm := local_name advertising_data).
  destruct (atc_devices st !! addr) as [e0|] eqn:Hlk.
  - destruct (entry_after_known addr nm st e0 Hlk) as [Hid _].
    rewrite map_size_insert_Some by (rewrite Hlk; eauto).
    split.
    + intros a e. destruct (decide (addr = a)) as [<- | Hne].
      * rewrite lookup_insert_eq. intros [= <-]. rewrite Hid. eauto.
      * rewrite lookup_insert_ne by assumption. apply Hrange.
    + intros a b ea eb.
      destruct (decide (addr = a)) as [<- | Ha];
        destruct (decide (addr = b)) as [<- | Hb];
        rewrite ?lookup_insert_eq, ?lookup_insert_ne by assumption.
      * reflexivity.
      * intros [= <-] Hb' Heq. rewrite Hid in Heq. eauto.
      * intros Ha' [= <-] Heq. rewrite Hid in Heq. eauto.
      * apply Hinj.
  - pose proof (entry_after_new addr nm st Hlk) as Hid.
    rewrite map_size_insert_None by exact Hlk.
    split.
    + intros a e. destruct (decide (addr = a)) as [<- | Hne].
      * rewrite lookup_insert_eq. intros [= <-]. rewrite Hid. lia.
      * rewrite lookup_insert_ne by assumption. intros He.
        specialize (Hrange _ _ He). lia.
    + intros a b ea eb.
      destruct (decide (addr = a)) as [<- | Ha];
        destruct (decide (addr = b)) as [<- | Hb];
        rewrite ?lookup_insert_eq, ?lookup_insert_ne by assumption.
      * reflexivity.
      * intros [= <-] Hb' Heq. specialize (Hrange _ _ Hb'). lia.
      * intros Ha' [= <-] Heq. specialize (Hrange _ _ Ha'). lia.
      * apply Hinj.
Qed.

(** X2. After any scan from the start, the slots of the registered devices
    are exactly the numbers below the number of devices, and no two
    addresses share a slot. *)
Theorem slots_are_dense_and_distinct (evs : list advertisement) :
  (forall a e, atc_devices (scan initial evs) !! a = Some e ->
     0 <= id e < Z.of_nat (size (atc_devices (scan initial evs)))) /\
  (forall a b ea eb,
     atc_devices (scan initial evs) !! a = Some ea ->
     atc_devices (scan initial evs) !! b = Some eb ->
     id ea = id eb -> a = b).
Proof.
  apply (scan_invariant slots_ok); [| apply slots_ok_initial].
  intros. now apply slots_ok_callback.
Qed.

(** ** The three dictionaries *)

Lemma same_keys_callback device advertising_data date_now st :
  same_keys st -> same_keys (callback device advertising_data date_now st).
Proof.
  intros Hkeys.
  destruct (atc_payload advertising_data) as [adv_atc|] eqn:Hp;
    [| now rewrite (callback_skip _ _ _ _ Hp)].
  intros a. rewrite (callback_devices_eq _ _ _ _ _ Hp),
    (callback_counters_eq _ _ _ _ _ Hp), (callback_date_eq _ _ _ _ _ Hp).
  destruct (decide (address device = a)) as [<- | Hne].
  - rewrite !lookup_insert_eq.
    destruct (decide _) as [Hc | Hc].
    + destruct (Hkeys (address device)) as [Hcs Hds].
      assert (Hdev : is_Some (atc_devices st !! address device))
        by (apply Hcs; rewrite Hc; eauto).
      apply Hds in Hdev. split; split; eauto.
    + rewrite lookup_insert_eq. split; split; eauto.
  - rewrite !lookup_insert_ne by assumption.
    destruct (decide _); rewrite ?lookup_insert_ne by assumption;
      apply Hkeys.
Qed.

(** X3. After any scan from the start the three dictionaries have the same
    keys: an address has a counter, and a timestamp, exactly when it is
    registered. *)
Theorem dictionaries_share_keys (evs : list advertisement) (a : string) :
  (is_Some (atc_counters (scan initial evs) !! a) <->
   is_Some (atc_devices (scan initial evs) !! a)) /\
  (is_Some (atc_date (scan initial evs) !! a) <->
   is_Some (atc_devices (scan initial evs) !! a)).
Proof.
  revert a. apply (scan_invariant same_keys).
  - intros. now apply same_keys_callback.
  - intros a. cbn. rewrite !lookup_empty. split; split; intros [? [=]].
Qed.

(** ** Other addresses *)

(** X4. An advertisement touches the entries of its own address only: the
    counter, the timestamp and the registration of every other address
    are left as they were. *)
Theorem other_addresses_untouched device advertising_data date_now st a :
  address device <> a ->
  atc_counters (callback device advertising_data date_now st) !! a
    = atc_counters st !! a /\
  atc_date (callback device advertising_data date_now st) !! a
    = atc_date st !! a /\
  atc_devices (callback device advertising_data date_now st) !! a
    = atc_devices st !! a.
Proof.
  intros Hne.
  destruct (atc_payload advertising_data) as [adv_atc|] eqn:Hp;
    [| now rewrite (callback_skip _ _ _ _ Hp)].
  rewrite (callback_devices_eq _ _ _ _ _ Hp),
    (callback_counters_eq _ _ _ _ _ Hp), (callback_date_eq _ _ _ _ _ Hp).
  rewrite !lookup_insert_ne by assumption.
  destruct (decide _); rewrite ?lookup_insert_ne by assumption; auto.
Qed.

(** The second sensor is registered in [ex_state_two], with slot 1,
    counter 1 and the timestamp of its advertisement. *)
Example ex_state_two_second_sensor :
  atc_counters ex_state_two !! address ex_dev_b = Some 1 /\
  atc_date ex_state_two !! address ex_dev_b = Some 2000000 /\
  atc_devices ex_state_two !! address ex_dev_b
    = Some (DeviceEntry (Some "ATC-DB77") 1).
Proof. repeat split; vm_compute; reflexivity. Qed.

Lemma other_addresses_untouched_witness :
  atc_counters (callback ex_dev ex_adv2 3400000 ex_state_two)
    !! address ex_dev_b
    = atc_counters ex_state_two !! address ex_dev_b /\
  atc_date (callback ex_dev ex_adv2 3400000 ex_state_two) !! address ex_dev_b
    = atc_date ex_state_two !! address ex_dev_b /\
  atc_devices (callback ex_dev ex_adv2 3400000 ex_state_two)
    !! address ex_dev_b
    = atc_devices ex_state_two !! address ex_dev_b.
Proof.
  apply (other_addresses_untouched ex_dev ex_adv2 3400000 ex_state_two
           (address ex_dev_b)).
  vm_compute. discriminate.
Defined.

(** ** What the dictionaries hold after a scan *)

(** X5. After any scan the counter stored for an address is the sequence
    counter of the last advertisement that came from it with service data
    (the one stored before when there was none). *)
Theorem stored_counter_is_last_seen (evs : list advertisement) (st : state)
    (a : string) :
  atc_counters (scan st evs) !! a = last_count a evs (atc_counters st !! a).
Proof.
  revert st.
  induction evs as [|[[device advertising_data] date_now] evs IH];
    intros st; [reflexivity |].
  cbn [scan foldl last_count].
  fold (scan (callback device advertising_data date_now st) evs).
  rewrite IH. f_equal.
  destruct (atc_payload advertising_data) as [adv_atc|] eqn:Hp;
    [| now rewrite (callback_skip _ _ _ _ Hp)].
  rewrite (callback_counters_eq _ _ _ _ _ Hp).
  case_bool_decide as Ha.
  - subst a. apply lookup_insert_eq.
  - now apply lookup_insert_ne.
Qed.

(** X6. After any scan from the start the timestamp stored for an address
    is the arrival time of the last advertisement of that address whose
    counter differed from the stored one; there is none when no
    advertisement of the address was accepted. *)
Theorem stored_date_is_last_accepted (evs : list advertisement) (a : string) :
  atc_date (scan initial evs) !! a = last_accepted a initial evs None.
Proof.
  rewrite atc_date_last_accepted by apply registry_ok_initial. reflexivity.
Qed.

(** ** Rebroadcasts *)

(** X7. After a scan from the start and an advertisement with service
    data, a further advertisement of the same address with the same
    sequence counter changes nothing, whatever its name, signal strength,
    other bytes and arrival time are. *)
Theorem rebroadcast_changes_nothing (evs : list advertisement)
    device advertising_data date_now device' advertising_data' date_now'
    adv_atc adv_atc' :
  atc_payload advertising_data = Some adv_atc ->
  atc_payload advertising_data' = Some adv_atc' ->
  address device' = address device ->
  count adv_atc' = count adv_atc ->
  callback device' advertising_data' date_now'
    (callback device advertising_data date_now (scan initial evs))
  = callback device advertising_data date_now (scan initial evs).
Proof.
  intros Hp Hp' Haddr Hcount.
  destruct (atc_payload_some _ _ Hp') as [H' Hlen'].
  apply (callback_no_change _ _ _ _ adv_atc'); try assumption.
  - apply registry_ok_callback, registry_ok_scan.
  - rewrite (callback_counters_eq _ _ _ _ _ Hp), Haddr, Hcount.
    apply lookup_insert_eq.
Qed.

Lemma rebroadcast_changes_nothing_witness :
  callback ex_dev ex_adv 9000000 (callback ex_dev ex_adv 1000000 (scan initial []))
  = callback ex_dev ex_adv 1000000 (scan initial []).
Proof.
  apply (rebroadcast_changes_nothing [] ex_dev ex_adv 1000000
           ex_dev ex_adv 9000000 ex_payload ex_payload);
    reflexivity.
Defined.

(** ** The terminal *)

Lemma callback_terminal_eq device advertising_data date_now st adv_atc :
  atc_payload advertising_data = Some adv_atc ->
  let addr := address device in
  let nm := local_name advertising_data in
  let e := entry_after addr nm st in
  terminal (callback device advertising_data date_now st) =
  terminal st ++ clear_on_first addr st
  ++ (if decide (atc_counters st !! addr = Some (count adv_atc)) then []
      else render (posx (id e)) (posy (id e))
             (rows (name_shown addr nm st) adv_atc
                   (rssi advertising_data) date_now
              ++ duration_row (date_diff date_now (atc_date st !! addr)))).
Proof.
  intros [H Hlen]%atc_payload_some. cbv zeta.
  rewrite (callback_state _ _ _ _ _ H Hlen). cbv zeta.
  destruct (decide _); cbn [terminal]; now rewrite ?app_nil_r.
Qed.

Lemma count_cls_app (out out' : list output) :
  count_cls (out ++ out') = (count_cls out + count_cls out')%nat.
Proof.
  induction out as [|[|y x t] out IH]; cbn; [reflexivity | |]; now rewrite IH.
Qed.

Lemma count_cls_render (x y : Z) (ts : list text) :
  count_cls (render x y ts) = 0%nat.
Proof. revert y. induction ts as [|t ts IH]; intros y; cbn; auto. Qed.

Lemma cleared_once_callback device advertising_data date_now st :
  cleared_once st ->
  cleared_once (callback device advertising_data date_now st).
Proof.
  unfold cleared_once. intros Hinv.
  destruct (atc_payload advertising_data) as [adv_atc|] eqn:Hp;
    [| now rewrite (callback_skip _ _ _ _ Hp)].
  rewrite (callback_terminal_eq _ _ _ _ _ Hp),
    (callback_devices_eq _ _ _ _ _ Hp). cbv zeta.
  rewrite !count_cls_app, Hinv.
  set (vs' := <[address device := _]> (atc_devices st)).
  assert (Hnz : size vs' <> 0%nat)
    by apply map_size_non_empty_iff, insert_non_empty.
  destruct (decide (size vs' = 0%nat)) as [? | _]; [contradiction |].
  assert (Hrows : forall x y ts P (d : Decision P),
            count_cls (if d then [] else render x y ts) = 0%nat)
    by (intros x y ts P [?|?]; [reflexivity | apply count_cls_render]).
  rewrite Hrows. unfold clear_on_first.
  destruct (decide (size (atc_devices st) = 0%nat)) as [Hz | Hz].
  - apply map_size_empty_inv in Hz. rewrite Hz, lookup_empty. reflexivity.
  - destruct (atc_devices st !! address device); reflexivity.
Qed.

(** X8. After any scan from the start the callback has cleared the screen
    once if a device is registered and never otherwise: the clear of the
    first registration is the only one. *)
Theorem screen_cleared_once (evs : list advertisement) :
  count_cls (terminal (scan initial evs))
  = if decide (size (atc_devices (scan initial evs)) = 0%nat)
    then 0%nat else 1%nat.
Proof.
  change (cleared_once (scan initial evs)).
  apply (scan_invariant cleared_once).
  - intros. now apply cleared_once_callback.
  - reflexivity.
Qed.

(** ** The name shown *)

Lemma name_truthy_some (n : option string) :
  name_truthy n = true <-> exists s, n = Some s /\ s <> "".
Proof.
  destruct n as [s|]; cbn.
  - rewrite negb_true_iff, String.eqb_neq. split.
    + intros Hs. eauto.
    + intros (s' & [= <-] & Hs). exact Hs.
  - split; [discriminate | intros (s & [=] & _)].
Qed.

(** X9. The first row of an update shows a non-empty device name: the
    local name of the advertisement when that is a non-empty string,
    otherwise the name stored for the address when that is one, otherwise
    the synthetic name of the address. *)
Theorem shown_name_is_resolved device advertising_data date_now st adv_atc :
  atc_payload advertising_data = Some adv_atc ->
  atc_counters st !! address device <> Some (count adv_atc) ->
  exists n i rest,
    shown device advertising_data date_now st =
      clear_on_first (address device) st
      ++ PrintAt (posy i) (posx i) (Row 12 "device:" (VName (Some n))) :: rest /\
    n <> "" /\
    (forall s, local_name advertising_data = Some s -> s <> "" -> n = s) /\
    (name_truthy (local_name advertising_data) = false ->
     forall e0 s, atc_devices st !! address device = Some e0 ->
                  name e0 = Some s -> s <> "" -> n = s) /\
    (name_truthy (local_name advertising_data) = false ->
     (forall e0, atc_devices st !! address device = Some e0 ->
                 name_truthy (name e0) = false) ->
     n = synthetic_name (address device)).
Proof.
  intros Hp Hc.
  pose proof (callback_terminal_eq device advertising_data date_now st
                adv_atc Hp) as Hout. cbv zeta in Hout.
  rewrite decide_False in Hout by assumption.
  set (addr := address device) in *. set (nm := local_name advertising_data) in *.
  assert (Hshown : name_truthy (name_shown addr nm st) = true /\
            (name_truthy nm = true -> name_shown addr nm st = nm) /\
            (name_truthy nm = false ->
             forall e0, atc_devices st !! addr = Some e0 ->
                        name_truthy (name e0) = true ->
                        name_shown addr nm st = name e0) /\
            (name_truthy nm = false ->
             (forall e0, atc_devices st !! addr = Some e0 ->
                         name_truthy (name e0) = false) ->
             name_shown addr nm st = Some (synthetic_name addr))).
  { unfold name_shown, entry_after.
    destruct (name_truthy nm) eqn:Hnm.
    - repeat split; auto; discriminate.
    - destruct (atc_devices st !! addr) as [e0|] eqn:Hlk; cbn [orb].
      + destruct (name_truthy (name e0)) eqn:He0; cbn [name].
        * repeat split; auto; try discriminate.
          -- intros _ e1 [= <-] _. reflexivity.
          -- intros _ Hall. specialize (Hall e0 eq_refl). congruence.
        * repeat split; auto; try discriminate.
          intros _ e1 [= <-] He1. congruence.
      + cbn [name]. repeat split; auto; discriminate. }
  destruct Hshown as (Htruthy & Hlocal & Hstored & Hsynth).
  apply name_truthy_some in Htruthy as (n & Hn & Hne).
  unfold shown. rewrite Hout, drop_app_length, Hn.
  eexists n, _, _. split; [reflexivity |]. split; [exact Hne |].
  split; [| split].
  - intros s Hs Hs'. assert (Ht : name_truthy nm = true)
      by (apply name_truthy_some; eauto).
    specialize (Hlocal Ht). congruence.
  - intros Hnm e0 s Hlk He0 Hs.
    assert (Ht : name_truthy (name e0) = true)
      by (apply name_truthy_some; eauto).
    specialize (Hstored Hnm e0 Hlk Ht). congruence.
  - intros Hnm Hall. specialize (Hsynth Hnm Hall). congruence.
Qed.

Lemma shown_name_is_resolved_witness :
  exists n i rest,
    shown ex_dev ex_adv2 3400000 ex_state =
      clear_on_first (address ex_dev) ex_state
      ++ PrintAt (posy i) (posx i) (Row 12 "device:" (VName (Some n))) :: rest /\
    n <> "" /\
    (forall s, local_name ex_adv2 = Some s -> s <> "" -> n = s) /\
    (name_truthy (local_name ex_adv2) = false ->
     forall e0 s, atc_devices ex_state !! address ex_dev = Some e0 ->
                  name e0 = Some s -> s <> "" -> n = s) /\
    (name_truthy (local_name ex_adv2) = false ->
     (forall e0, atc_devices ex_state !! address ex_dev = Some e0 ->
                 name_truthy (name e0) = false) ->
     n = synthetic_name (address ex_dev)).
Proof.
  apply (shown_name_is_resolved ex_dev ex_adv2 3400000 ex_state ex_payload2).
  - reflexivity.
  - vm_compute. discriminate.
Defined.

(** ** The synthetic name *)

Lemma split_not_nil (sep : ascii) (s : string) : split sep s <> [].
Proof.
  destruct s as [|c s]; cbn [split]; [discriminate |].
  destruct (Ascii.eqb c sep); [discriminate |].
  destruct (split sep s); discriminate.
Qed.

Lemma split_app_sep (sep : ascii) (s1 s2 : string) :
  split sep (s1 ++ String sep s2)%string = split sep s1 ++ split sep s2.
Proof.
  induction s1 as [|c s1 IH].
  - change (split sep (String sep s2) = [EmptyString] ++ split sep s2).
    cbn [split app]. now rewrite Ascii.eqb_refl.
  - change (split sep (String c (s1 ++ String sep s2)%string)
            = split sep (String c s1) ++ split sep s2).
    cbn [split].
    destruct (Ascii.eqb c sep); [now rewrite IH |].
    rewrite IH. pose proof (split_not_nil sep s1) as Hne.
    destruct (split sep s1); [contradiction | reflexivity].
Qed.

Lemma split_no_colon (s : string) :
  no_colon s = true -> split ":" s = [s].
Proof.
  induction s as [|c s IH]; cbn [split no_colon]; [reflexivity |].
  intros [Hc Hs]%andb_prop. apply negb_true_iff in Hc. rewrite Hc.
  now rewrite (IH Hs).
Qed.

(** X10. The synthetic name of an address is "ATC-" followed by its last
    two colon-separated parts, joined as they are (no change of case); an
    address without a colon is taken whole. *)
Theorem synthetic_name_of_address (p a b : string) :
  (no_colon a = true -> no_colon b = true ->
   synthetic_name (p ++ ":" ++ a ++ ":" ++ b) = ("ATC-" ++ a ++ b)%string) /\
  (no_colon a = true -> synthetic_name a = ("ATC-" ++ a)%string).
Proof.
  unfold synthetic_name. split.
  - intros Ha Hb.
    change (p ++ ":" ++ a ++ ":" ++ b)%string
      with (p ++ String ":" (a ++ String ":" b))%string.
    rewrite !split_app_sep, (split_no_colon a Ha), (split_no_colon b Hb).
    rewrite !length_app. cbn [length].
    replace (length (split ":" p) + (1 + 1) - 2)%nat
      with (length (split ":" p)) by lia.
    rewrite drop_app_length. reflexivity.
  - intros Ha. rewrite (split_no_colon a Ha). reflexivity.
Qed.

Example synthetic_name_of_mac :
  synthetic_name "a4:c1:38:00:db:77" = "ATC-db77".
Proof. reflexivity. Qed.

(** ** Panels *)

Lemma slots_ok_scan (evs : list advertisement) : slots_ok (scan initial evs).
Proof.
  apply (scan_invariant slots_ok); [| apply slots_ok_initial].
  intros. now apply slots_ok_callback.
Qed.

Lemma grid_positions_distinct (i j k l : Z) :
  0 <= i -> 0 <= j -> 0 <= k < text_hight -> 0 <= l < text_hight ->
  posx i = posx j -> posy i + k = posy j + l -> i = j /\ k = l.
Proof.
  unfold posx, posy, text_width, name_len, h1, h2, gap, text_hight, cols.
  intros Hi Hj Hk Hl Hx Hy.
  pose proof (Z.div_mod i 4 ltac:(lia)) as Hdi.
  pose proof (Z.div_mod j 4 ltac:(lia)) as Hdj.
  pose proof (Z.mod_pos_bound i 4 ltac:(lia)).
  pose proof (Z.mod_pos_bound j 4 ltac:(lia)).
  lia.
Qed.

(** X11. After any scan from the start the panels of two different
    addresses share no cursor position: the lines below the grid position
    of one slot, up to the height of a cell (13, the rows take at most 10),
    are all different from those of the other. *)
Theorem panels_share_no_position (evs : list advertisement)
    (a b : string) (ea eb : device_entry) (k l : Z) :
  a <> b ->
  atc_devices (scan initial evs) !! a = Some ea ->
  atc_devices (scan initial evs) !! b = Some eb ->
  0 <= k < text_hight -> 0 <= l < text_hight ->
  (posx (id ea), posy (id ea) + k) <> (posx (id eb), posy (id eb) + l).
Proof.
  intros Hab Ha Hb Hk Hl [= Hx Hy].
  destruct (slots_ok_scan evs) as [Hrange Hinj].
  destruct (grid_positions_distinct (id ea) (id eb) k l) as [Hid _];
    try assumption.
  - apply (Hrange _ _ Ha).
  - apply (Hrange _ _ Hb).
  - apply Hab, (Hinj _ _ _ _ Ha Hb Hid).
Qed.

Lemma panels_share_no_position_witness :
  (posx (id (DeviceEntry (Some "ATC-995B") 0)),
   posy (id (DeviceEntry (Some "ATC-995B") 0)) + 0)
  <> (posx (id (DeviceEntry (Some "ATC-DB77") 1)),
      posy (id (DeviceEntry (Some "ATC-DB77") 1)) + 0).
Proof.
  apply (panels_share_no_position
           [(ex_dev, ex_adv, 1000000);
            ({| address := "A4:C1:38:00:DB:77" |}, ex_adv, 2000000)]
           "A4:C1:38:00:99:5B" "A4:C1:38:00:DB:77").
  - vm_compute. discriminate.
  - vm_compute. reflexivity.
  - vm_compute. reflexivity.
  - unfold text_hight. lia.
  - unfold text_hight. lia.
Defined.

(** ** The rows of an update *)

Lemma render_imap (x y : Z) (ts : list text) :
  render x y ts = imap (fun k t => PrintAt (y + Z.of_nat k) x t) ts.
Proof.
  revert y. induction ts as [|t ts IH]; intros y; [reflexivity |].
  cbn [render imap]. rewrite IH. f_equal; [f_equal; lia |].
  apply imap_ext. intros k t' _. cbn [compose]. f_equal. lia.
Qed.

(** X20. An update writes nine or ten rows, each on a line of its own: row
    [k] goes to line [posy + k] of the column [posx] of the slot stored for
    the device, and the print cursor is left on the line below the last
    row. *)
Theorem update_rows_on_consecutive_lines
    device advertising_data date_now st adv_atc :
  atc_payload advertising_data = Some adv_atc ->
  atc_counters st !! address device <> Some (count adv_atc) ->
  exists e ts,
    atc_devices (callback device advertising_data date_now st)
      !! address device = Some e /\
    (length ts = 9%nat \/ length ts = 10%nat) /\
    shown device advertising_data date_now st =
      clear_on_first (address device) st
      ++ imap (fun k t => PrintAt (posy (id e) + Z.of_nat k) (posx (id e)) t)
              ts /\
    print_pos (callback device advertising_data date_now st) =
      Position (posx (id e)) (posy (id e) + Z.of_nat (length ts)).
Proof.
  intros Hp Hc. destruct (atc_payload_some _ _ Hp) as [H Hlen].
  pose proof (callback_state device advertising_data date_now st adv_atc
                H Hlen) as Hst. cbv zeta in Hst.
  rewrite decide_False in Hst by assumption.
  unfold shown. rewrite Hst. cbn [atc_devices terminal print_pos].
  eexists _, _. split; [apply lookup_insert_eq |].
  split; [| split; [rewrite drop_app_length, render_imap; reflexivity
                   | reflexivity]].
  rewrite length_app. unfold duration_row.
  destruct (date_diff_truthy _); cbn; auto.
Qed.

Lemma update_rows_on_consecutive_lines_witness :
  exists e ts,
    atc_devices (callback ex_dev ex_adv2 3400000 ex_state)
      !! address ex_dev = Some e /\
    (length ts = 9%nat \/ length ts = 10%nat) /\
    shown ex_dev ex_adv2 3400000 ex_state =
      clear_on_first (address ex_dev) ex_state
      ++ imap (fun k t => PrintAt (posy (id e) + Z.of_nat k) (posx (id e)) t)
              ts /\
    print_pos (callback ex_dev ex_adv2 3400000 ex_state) =
      Position (posx (id e)) (posy (id e) + Z.of_nat (length ts)).
Proof.
  apply (update_rows_on_consecutive_lines
           ex_dev ex_adv2 3400000 ex_state ex_payload2).
  - reflexivity.
  - vm_compute. discriminate.
Defined.

(** ** Stored counters *)

Lemma count_range (adv_atc : list byte) : 0 <= count adv_atc <= 255.
Proof.
  pose proof (int_from_bytes_unsigned_range (slice 13 14 adv_atc)
                (slice_length 13 14 adv_atc)).
  unfold count. lia.
Qed.

Lemma counters_are_bytes_callback device advertising_data date_now st :
  (forall a c, atc_counters st !! a = Some c -> 0 <= c <= 255) ->
  forall a c,
    atc_counters (callback device advertising_data date_now st) !! a = Some c ->
    0 <= c <= 255.
Proof.
  intros Hinv a c.
  destruct (atc_payload advertising_data) as [adv_atc|] eqn:Hp;
    [| rewrite (callback_skip _ _ _ _ Hp); apply Hinv].
  rewrite (callback_counters_eq _ _ _ _ _ Hp).
  destruct (decide (address device = a)) as [<- | Hne].
  - rewrite lookup_insert_eq. intros [= <-]. apply count_range.
  - rewrite lookup_insert_ne by assumption. apply Hinv.
Qed.

(** X21. After any scan from the start every stored sequence counter is a
    byte value, whatever the length of the payloads was. *)
Theorem stored_counters_are_bytes (evs : list advertisement) (a : string)
    (c : Z) :
  atc_counters (scan initial evs) !! a = Some c -> 0 <= c <= 255.
Proof.
  revert a c.
  apply (scan_invariant
           (fun st => forall a c, atc_counters st !! a = Some c ->
                                  0 <= c <= 255)).
  - intros device advertising_data date_now st Hinv.
    exact (counters_are_bytes_callback device advertising_data date_now st
             Hinv).
  - intros a c. cbn. rewrite lookup_empty. discriminate.
Qed.

Lemma stored_counters_are_bytes_witness : 0 <= 1 <= 255.
Proof.
  apply (stored_counters_are_bytes [(ex_dev, ex_adv, 1000000)]
           "A4:C1:38:00:99:5B" 1).
  vm_compute. reflexivity.
Defined.

End MainRegistry.

(** * Further properties of outputs.py *)
Section OutputsManager.
Import Outputs.

(** ** The outcomes of add_window *)

(** X12. [add_window] with an id succeeds exactly when the cell width and
    the cell height are not zero, at least one column fits and the id is
    at most columns times rows (the id equal to that capacity is accepted).
    It raises ValueError exactly when the cell sizes are not zero and the
    id exceeds the capacity, and ZeroDivisionError in all other cases: a
    cell size of zero, or no column fitting and an id within the capacity
    (id 0 on a terminal narrower than one cell). *)
Theorem add_window_outcome (self : consoleWindows) (i width height : Z) :
  let cw := wx self + width + gap_x self in
  let ch := wy self + height + gap_y self in
  let xm := cols self / cw in
  let ym := rows self / ch in
  ((exists r, add_window self (Some i) width height = inr r) <->
   cw <> 0 /\ ch <> 0 /\ xm <> 0 /\ i <= xm * ym) /\
  (add_window self (Some i) width height = inl (ValueError i) <->
   cw <> 0 /\ ch <> 0 /\ xm * ym < i) /\
  (add_window self (Some i) width height = inl ZeroDivisionError <->
   cw = 0 \/ ch = 0 \/ (xm = 0 /\ i <= xm * ym)).
Proof.
  cbv zeta. unfold add_window, bind, floordiv, modulo.
  destruct (Z.eqb_spec (wx self + width + gap_x self) 0) as [Hcw | Hcw];
    [| destruct (Z.eqb_spec (wy self + height + gap_y self) 0)
         as [Hch | Hch];
       [| destruct (Z.ltb_spec
                      (cols self / (wx self + width + gap_x self)
                       * (rows self / (wy self + height + gap_y self))) i)
            as [Hcap | Hcap];
          [| destruct (Z.eqb_spec
                         (cols self / (wx self + width + gap_x self)) 0)
               as [Hxm | Hxm]]]];
    repeat split; intros;
    repeat match goal with
           | H : exists _, _ |- _ => destruct H
           | H : _ /\ _ |- _ => destruct H
           | H : _ \/ _ |- _ => destruct H
           end;
    first [congruence | lia | tauto | eauto].
Qed.

(** On a terminal of 20 columns no window of 21 columns fits: the first
    window raises ZeroDivisionError, any later id ValueError. *)
Example narrow_terminal :
  add_window (new_windows 20 24) None 21 5 = inl ZeroDivisionError /\
  add_window (new_windows 20 24) (Some 1) 21 5 = inl (ValueError 1).
Proof. split; reflexivity. Qed.

(** ** Ids given by the manager *)

Lemma foldr_max_ge (ks : list Z) (k0 k : Z) :
  k ∈ k0 :: ks -> k <= foldr Z.max k0 ks.
Proof.
  induction ks as [|a ks IH]; cbn [foldr].
  - intros ->%list_elem_of_singleton. lia.
  - intros Hin. apply elem_of_cons in Hin as [-> | Hin].
    + specialize (IH ltac:(left)). lia.
    + apply elem_of_cons in Hin as [-> | Hin]; [lia |].
      specialize (IH ltac:(now right)). lia.
Qed.

Lemma next_id_above (ws : gmap Z consoleWindow) (k : Z) (w : consoleWindow) :
  ws !! k = Some w -> k < next_id ws.
Proof.
  intros Hlk. unfold next_id.
  assert (Hin : k ∈ (map_to_list ws).*1).
  { apply (list_elem_of_fmap_2 fst (map_to_list ws) (k, w)).
    now apply elem_of_map_to_list. }
  destruct ((map_to_list ws).*1) as [|k0 ks].
  - now apply elem_of_nil in Hin.
  - pose proof (foldr_max_ge ks k0 k Hin). lia.
Qed.

(** X13. A window added without an id gets an id that is larger than every
    id in use, so no window is replaced: the windows there before are all
    kept, and the new one starts with its cursor at (0, 0). *)
Theorem add_window_takes_fresh_id (self self' : consoleWindows)
    (width height i : Z) :
  add_window self None width height = inr (i, self') ->
  windows self !! i = None /\
  (forall k w, windows self !! k = Some w ->
               k < i /\ windows self' !! k = Some w) /\
  size (windows self') = S (size (windows self)) /\
  exists w, windows self' !! i = Some w /\ pos w = Position 0 0 /\
            Outputs.width w = width /\ Outputs.height w = height.
Proof.
  unfold add_window, bind, floordiv, modulo.
  destruct (_ =? 0); [discriminate |].
  destruct (_ =? 0); [discriminate |].
  destruct (_ <? _); [discriminate |].
  destruct (_ =? 0); [discriminate |].
  intros [= <- <-]. cbn [windows].
  assert (Hfresh : windows self !! next_id (windows self) = None).
  { destruct (windows self !! next_id (windows self)) as [w|] eqn:Hlk;
      [| reflexivity].
    apply next_id_above in Hlk. lia. }
  split; [exact Hfresh |]. split; [| split].
  - intros k w Hlk. pose proof (next_id_above _ _ _ Hlk) as Hlt.
    split; [exact Hlt |]. rewrite lookup_insert_ne by lia. exact Hlk.
  - now apply map_size_insert_None.
  - eexists. split; [apply lookup_insert_eq |]. auto.
Qed.

(** Adding to the manager that holds windows 0 and 1 gives window 2. *)
Example demo_manager_third_window :
  size (windows demo_manager_two) = 2%nat /\
  add_window demo_manager_two None 21 5 = inr (2, demo_manager_three).
Proof. split; vm_compute; reflexivity. Qed.

Lemma add_window_takes_fresh_id_witness :
  windows demo_manager_two !! 2 = None /\
  (forall k w, windows demo_manager_two !! k = Some w ->
               k < 2 /\ windows demo_manager_three !! k = Some w) /\
  size (windows demo_manager_three) = S (size (windows demo_manager_two)) /\
  exists w,
    windows demo_manager_three !! 2 = Some w /\
    pos w = Position 0 0 /\ Outputs.width w = 21 /\ Outputs.height w = 5.
Proof.
  apply (add_window_takes_fresh_id demo_manager_two demo_manager_three 21 5 2).
  vm_compute. reflexivity.
Defined.

End OutputsManager.

Section OutputsCursor.
Import Outputs.

(** ** Clipping *)

(** X14. Clipping is idempotent, and it leaves a position inside the window
    as it is. *)
Theorem clip_window_pos_fixes_inside (self : consoleWindow) (p : position) :
  clip_window_pos self (Some (clip_window_pos self (Some p)))
    = clip_window_pos self (Some p) /\
  (0 <= pos_x p < width self -> 0 <= pos_y p < height self ->
   clip_window_pos self (Some p) = p).
Proof.
  destruct p as [px py]. unfold clip_window_pos. cbn [pos_x pos_y]. split.
  - f_equal; lia.
  - intros Hx Hy. f_equal; lia.
Qed.

(** X15. [get_abs_pos] clips the sum of origin and cursor to the size of
    the window itself: for a window of width and height at least 1 it
    returns origin plus cursor exactly when that sum lies inside
    [0, width - 1] x [0, height - 1]. *)
Theorem get_abs_pos_is_clipped_to_size (self : consoleWindow) :
  1 <= width self -> 1 <= height self ->
  (get_abs_pos self
     = Position (x self + pos_x (pos self)) (y self + pos_y (pos self)) <->
   0 <= x self + pos_x (pos self) <= width self - 1 /\
   0 <= y self + pos_y (pos self) <= height self - 1).
Proof.
  intros Hw Hh. unfold get_abs_pos, clip_window_pos. cbn [pos_x pos_y].
  split.
  - intros [= Hx Hy]. lia.
  - intros [Hx Hy]. f_equal; lia.
Qed.

Lemma get_abs_pos_is_clipped_to_size_witness :
  get_abs_pos (new_window 1 21 5 9 5)
    = Position (x (new_window 1 21 5 9 5)
                + pos_x (pos (new_window 1 21 5 9 5)))
               (y (new_window 1 21 5 9 5)
                + pos_y (pos (new_window 1 21 5 9 5))) <->
  0 <= x (new_window 1 21 5 9 5) + pos_x (pos (new_window 1 21 5 9 5))
    <= width (new_window 1 21 5 9 5) - 1 /\
  0 <= y (new_window 1 21 5 9 5) + pos_y (pos (new_window 1 21 5 9 5))
    <= height (new_window 1 21 5 9 5) - 1.
Proof.
  apply (get_abs_pos_is_clipped_to_size (new_window 1 21 5 9 5));
    simpl; lia.
Defined.

(** The second window of the demonstration grid has its origin at row 5,
    its own height: [get_abs_pos] returns row 4 for its cursor (0, 0). *)
Example get_abs_pos_second_window :
  get_abs_pos (new_window 1 21 5 9 5) = Position 9 4.
Proof. reflexivity. Qed.

(** ** The position dictionary of the caller *)

(** X16. A position passed to [print_line] comes back changed (column 0,
    the clipped row plus the line height, not clipped), and passing it
    again has the effect of passing no position: the same window and the
    same write. *)
Theorem reused_position_continues {S} `{PrintAbstract S}
    (self : consoleWindow) (text text' : string) (p : position) (sink : S) :
  exists p',
    snd (print_line self text (Some p) sink) = Some p' /\
    p' = Position 0 (pos_y (clip_window_pos self (Some p)) + line_height self) /\
    fst (print_line (fst (fst (print_line self text (Some p) sink))) text'
           (Some p') (snd (fst (print_line self text (Some p) sink))))
    = fst (print_line (fst (fst (print_line self text (Some p) sink))) text'
             None (snd (fst (print_line self text (Some p) sink)))).
Proof.
  eexists. rewrite !print_line_spec. cbn [fst snd].
  split; [reflexivity |]. split; reflexivity.
Qed.

(** ** Lines below the last row *)

Lemma print_lines_rows_from (ts : list string) (self : consoleWindow)
    (r0 : Z) (out : stdout) :
  1 <= width self -> 1 <= height self -> line_height self = 1 ->
  pos self = Position 0 r0 -> 0 <= r0 < height self ->
  print_lines self ts out =
  (set_pos self
     (Position 0 (Z.min (r0 + Z.of_nat (length ts)) (height self - 1))),
   out ++ imap (fun k text =>
                  line_at 0 (Z.min (r0 + Z.of_nat k) (height self - 1)) text)
               ts).
Proof.
  revert self r0 out. induction ts as [|text ts IH];
    intros self r0 out Hw Hh Hlh Hpos Hr0.
  - cbn. rewrite app_nil_r, Z.add_0_r, Z.min_l by lia.
    destruct self. cbn in Hpos. subst. reflexivity.
  - cbn [print_lines]. rewrite print_line_spec. cbn [cursor_used].
    rewrite Hpos, Hlh. cbn [pos_x pos_y].
    set (self' := set_pos self _).
    rewrite (IH self' (Z.min (r0 + 1) (height self - 1))); subst self';
      cbn [width height line_height pos set_pos]; try lia.
    + f_equal.
      * unfold set_pos. cbn. do 2 f_equal. cbn [length]. lia.
      * cbn [print_value ConsolePrint format_text pos_x pos_y].
        rewrite <- app_assoc. cbn [app imap]. f_equal.
        replace ((r0 + Z.of_nat 0) `min` (height self - 1)) with r0 by lia.
        f_equal. apply imap_ext. intros k t _. cbn [compose].
        f_equal. lia.
    + f_equal; lia.
Qed.

(** X17. Lines printed without a position into a fresh window of width and
    height at least 1 go to column 0 of the rows 0, 1, 2, ... of the window
    itself and, from the last row on, all to the last row: line [k] is
    written at row [min k (height - 1)], and the origin of the window does
    not enter. *)
Theorem print_lines_overwrite_last_row (i width height x y : Z)
    (ts : list string) (out : stdout) :
  1 <= width -> 1 <= height ->
  print_lines (new_window i width height x y) ts out =
  (set_pos (new_window i width height x y)
     (Position 0 (Z.min (Z.of_nat (length ts)) (height - 1))),
   out ++ imap (fun k text =>
                  line_at 0 (Z.min (Z.of_nat k) (height - 1)) text) ts).
Proof.
  intros Hw Hh.
  rewrite (print_lines_rows_from ts (new_window i width height x y) 0 out);
    cbn [Outputs.width Outputs.height line_height pos new_window];
    try reflexivity; lia.
Qed.

Lemma print_lines_overwrite_last_row_witness :
  print_lines (new_window 0 21 5 9 0) (replicate 10 "line") [] =
  (set_pos (new_window 0 21 5 9 0)
     (Position 0 (Z.min (Z.of_nat (length (replicate 10 "line"))) (5 - 1))),
   [] ++ imap (fun k text => line_at 0 (Z.min (Z.of_nat k) (5 - 1)) text)
              (replicate 10 "line")).
Proof.
  apply (print_lines_overwrite_last_row 0 21 5 9 0 (replicate 10 "line") []);
    lia.
Defined.

End OutputsCursor.

Section OutputsSinks.
Import Outputs.

(** ** After the exit signal *)

Lemma exec_done (s : async_sink) (e : event) :
  worker_done s = true ->
  exec s e = AsyncSink (print_queue s ++ enqueued e) true (printed s).
Proof.
  intros Hd.
  assert (Hcase : e = Worker \/ e <> Worker)
    by (destruct e; (left; reflexivity) || (right; discriminate)).
  destruct Hcase as [-> | He].
  - cbn. unfold print_worker. rewrite Hd, app_nil_r.
    destruct s. cbn in *. now subst.
  - rewrite (exec_producer s e He), Hd. reflexivity.
Qed.

(** X18. Once the worker has taken the exit signal nothing is printed any
    more: whatever is called afterwards only grows the queue, the output
    stays as it is and the worker stays finished. *)
Theorem nothing_printed_after_exit (s : async_sink) (es : list event) :
  worker_done s = true ->
  worker_done (run s es) = true /\
  printed (run s es) = printed s /\
  print_queue (run s es) = print_queue s ++ history es.
Proof.
  revert s. induction es as [|e es IH]; intros s Hd.
  - cbn. now rewrite app_nil_r.
  - change (run s (e :: es)) with (run (exec s e) es).
    change (history (e :: es)) with (enqueued e ++ history es).
    rewrite (exec_done s e Hd).
    destruct (IH (AsyncSink (print_queue s ++ enqueued e) true (printed s))
                eq_refl) as (Hd' & Hp & Hq).
    rewrite Hd', Hp, Hq. cbn. now rewrite <- app_assoc.
Qed.

Lemma nothing_printed_after_exit_witness :
  worker_done (run (AsyncSink [] true ["a"]) [PrintValue "b" None; Worker])
    = true /\
  printed (run (AsyncSink [] true ["a"]) [PrintValue "b" None; Worker])
    = printed (AsyncSink [] true ["a"]) /\
  print_queue (run (AsyncSink [] true ["a"]) [PrintValue "b" None; Worker])
    = print_queue (AsyncSink [] true ["a"])
      ++ history [PrintValue "b" None; Worker].
Proof.
  apply (nothing_printed_after_exit (AsyncSink [] true ["a"])
           [PrintValue "b" None; Worker]).
  reflexivity.
Defined.

(** ** The two sinks print the same *)

Lemma sync_exec_texts (es : list event) (out : stdout) :
  foldl sync_exec out es = out ++ texts (history es).
Proof.
  revert out. induction es as [|e es IH]; intros out.
  - cbn. now rewrite app_nil_r.
  - cbn [foldl]. rewrite IH.
    change (history (e :: es)) with (enqueued e ++ history es).
    unfold texts. rewrite omap_app, app_assoc. f_equal.
    destruct e; cbn; rewrite ?app_nil_r; try reflexivity.
    f_equal. induction (Z.to_nat lines) as [|k IHk];
      [reflexivity | cbn; now rewrite IHk].
Qed.

Lemma close_flushes (es : list event) :
  ClosePut ∉ es ->
  close (S (length (print_queue (run new_async es)))) (run new_async es)
  = Some (AsyncSink [] true (texts (history es))).
Proof.
  intros Hno.
  pose proof (queue_invariant es) as Hinv. cbv zeta in Hinv.
  destruct (run new_async es) as [q done out] eqn:Hrun.
  unfold exit_seen in Hinv. cbn [printed worker_done print_queue] in *.
  rewrite (history_no_close es Hno) in Hinv.
  apply map_Some_split in Hinv as (l & Hl & Htexts).
  destruct done; [destruct l; discriminate |].
  cbn [app] in Hl. subst q. unfold close, put.
  cbn [print_queue worker_done printed].
  rewrite await_worker_drains by (rewrite length_map; lia).
  now rewrite Htexts.
Qed.

(** X19. The asynchronous sink prints what the synchronous sink prints:
    for any sequence of [print_value], [clear] and [clear_lines] calls,
    with worker turns anywhere in between, the output after [close] has
    returned is the output of the synchronous sink for the same calls. *)
Theorem async_prints_what_sync_prints (es : list event) :
  ClosePut ∉ es ->
  exists s',
    close (S (length (print_queue (run new_async es)))) (run new_async es)
      = Some s' /\
    printed s' = foldl sync_exec [] es.
Proof.
  intros Hno. eexists. split; [now apply close_flushes |].
  now rewrite sync_exec_texts.
Qed.

Lemma async_prints_what_sync_prints_witness :
  exists s',
    close (S (length (print_queue
                        (run new_async
                           [PrintValue "a" (Some (Position 3 4)); Worker;
                            Clear; ClearLines 2]))))
          (run new_async
             [PrintValue "a" (Some (Position 3 4)); Worker;
              Clear; ClearLines 2])
      = Some s' /\
    printed s'
      = foldl sync_exec []
          [PrintValue "a" (Some (Position 3 4)); Worker; Clear; ClearLines 2].
Proof.
  apply (async_prints_what_sync_prints
           [PrintValue "a" (Some (Position 3 4)); Worker; Clear; ClearLines 2]).
  intros Hin.
  repeat (apply elem_of_cons in Hin as [Hin | Hin]; [discriminate Hin |]).
  now apply elem_of_nil in Hin.
Defined.

End OutputsSinks.
